(** * The load-balancer NAT pool resource of the azurestack provider

    A shallow embedding of [azurestack/resource_arm_loadbalancer_nat_pool.go]
    and the properties of its create/update, read and delete operations.

    The operations talk to the named-lock registry, to the remote load
    balancer client and to the log.  They are embedded as finite interaction
    trees over the calls they make; an execution is a trace of calls with the
    answers the environment gave. *)

From Stdlib Require Import Ascii String List ZArith Bool Lia.
Import ListNotations.
Local Open Scope string_scope.
Local Open Scope list_scope.

(** ** Errors *)

(** Go [error] values, kept as the constructor that built them:
    [errors.New], [fmt.Errorf] (with its string arguments, and with the error
    printed by a trailing [%+v] when there is one) and [errwrap.Wrapf]. *)
Inductive error : Type :=
| ErrNew (msg : string)
| Errorf (format : string) (args : list string)
| ErrorfV (format : string) (args : list string) (err : error)
| Wrapf (format : string) (err : error).

(** [mentions v e]: the string [v] is one of the values printed by [e]. *)
Fixpoint mentions (v : string) (e : error) : Prop :=
  match e with
  | ErrNew _ => False
  | Errorf _ args => In v args
  | ErrorfV _ args e' => In v args \/ mentions v e'
  | Wrapf _ e' => mentions v e'
  end.

(** A Go run-time panic. *)
Inductive panic : Type :=
| NilDereference
| SliceBoundsOutOfRange.

(** How a Go function of result type [error] ends. *)
Inductive Outcome : Type :=
| Returned (err : option error)
| Panicked (p : panic).

(** ** The wire types of the network SDK

    Pointer fields are [option]s: [None] is Go's [nil]. *)

Record SubResource : Type := mkSubResource {
  sub_ID : option string
}.

Record FrontendIPConfiguration : Type := mkFrontendIPConfiguration {
  feip_ID : option string;
  feip_Name : option string
}.

Record InboundNatPoolPropertiesFormat : Type := mkInboundNatPoolPropertiesFormat {
  FrontendIPConfiguration_ref : option SubResource;
  Protocol : string;
  FrontendPortRangeStart : option Z;
  FrontendPortRangeEnd : option Z;
  BackendPort : option Z
}.

Record InboundNatPool : Type := mkInboundNatPool {
  pool_ID : option string;
  pool_Name : option string;
  pool_Properties : option InboundNatPoolPropertiesFormat
}.

Record LoadBalancerPropertiesFormat : Type := mkLoadBalancerPropertiesFormat {
  FrontendIPConfigurations : option (list FrontendIPConfiguration);
  InboundNatPools : option (list InboundNatPool);
  ProvisioningState : option string
}.

Record LoadBalancer : Type := mkLoadBalancer {
  lb_ID : option string;
  lb_Name : option string;
  lb_Properties : option LoadBalancerPropertiesFormat
}.

(** [lb.LoadBalancerPropertiesFormat.InboundNatPools = &pools]; a nil
    [LoadBalancerPropertiesFormat] cannot be assigned through. *)
Definition set_InboundNatPools (lb : LoadBalancer) (pools : list InboundNatPool)
  : option LoadBalancer :=
  match lb_Properties lb with
  | None => None
  | Some p =>
      Some (mkLoadBalancer (lb_ID lb) (lb_Name lb)
              (Some (mkLoadBalancerPropertiesFormat
                       (FrontendIPConfigurations p) (Some pools)
                       (ProvisioningState p))))
  end.

(** [*lb.LoadBalancerPropertiesFormat.InboundNatPools]: [None] when either
    pointer is nil (the dereference panics). *)
Definition deref_InboundNatPools (lb : LoadBalancer) : option (list InboundNatPool) :=
  match lb_Properties lb with
  | None => None
  | Some p => InboundNatPools p
  end.

(** ** The resource data of the schema *)

Record ResourceData : Type := mkResourceData {
  Id : string;
  name : string;
  resource_group_name : string;
  loadbalancer_id : string;
  protocol : string;
  frontend_port_start : Z;
  frontend_port_end : Z;
  backend_port : Z;
  frontend_ip_configuration_name : string;
  frontend_ip_configuration_id : string
}.

Definition SetId (v : string) (d : ResourceData) : ResourceData :=
  mkResourceData v (name d) (resource_group_name d) (loadbalancer_id d)
    (protocol d) (frontend_port_start d) (frontend_port_end d) (backend_port d)
    (frontend_ip_configuration_name d) (frontend_ip_configuration_id d).

Definition Set_name (v : string) (d : ResourceData) : ResourceData :=
  mkResourceData (Id d) v (resource_group_name d) (loadbalancer_id d)
    (protocol d) (frontend_port_start d) (frontend_port_end d) (backend_port d)
    (frontend_ip_configuration_name d) (frontend_ip_configuration_id d).

Definition Set_resource_group_name (v : string) (d : ResourceData) : ResourceData :=
  mkResourceData (Id d) (name d) v (loadbalancer_id d)
    (protocol d) (frontend_port_start d) (frontend_port_end d) (backend_port d)
    (frontend_ip_configuration_name d) (frontend_ip_configuration_id d).

Definition Set_protocol (v : string) (d : ResourceData) : ResourceData :=
  mkResourceData (Id d) (name d) (resource_group_name d) (loadbalancer_id d)
    v (frontend_port_start d) (frontend_port_end d) (backend_port d)
    (frontend_ip_configuration_name d) (frontend_ip_configuration_id d).

Definition Set_frontend_port_start (v : Z) (d : ResourceData) : ResourceData :=
  mkResourceData (Id d) (name d) (resource_group_name d) (loadbalancer_id d)
    (protocol d) v (frontend_port_end d) (backend_port d)
    (frontend_ip_configuration_name d) (frontend_ip_configuration_id d).

Definition Set_frontend_port_end (v : Z) (d : ResourceData) : ResourceData :=
  mkResourceData (Id d) (name d) (resource_group_name d) (loadbalancer_id d)
    (protocol d) (frontend_port_start d) v (backend_port d)
    (frontend_ip_configuration_name d) (frontend_ip_configuration_id d).

Definition Set_backend_port (v : Z) (d : ResourceData) : ResourceData :=
  mkResourceData (Id d) (name d) (resource_group_name d) (loadbalancer_id d)
    (protocol d) (frontend_port_start d) (frontend_port_end d) v
    (frontend_ip_configuration_name d) (frontend_ip_configuration_id d).

Definition Set_frontend_ip_configuration_name (v : string) (d : ResourceData)
  : ResourceData :=
  mkResourceData (Id d) (name d) (resource_group_name d) (loadbalancer_id d)
    (protocol d) (frontend_port_start d) (frontend_port_end d) (backend_port d)
    v (frontend_ip_configuration_id d).

Definition Set_frontend_ip_configuration_id (v : string) (d : ResourceData)
  : ResourceData :=
  mkResourceData (Id d) (name d) (resource_group_name d) (loadbalancer_id d)
    (protocol d) (frontend_port_start d) (frontend_port_end d) (backend_port d)
    (frontend_ip_configuration_name d) v.

(** [d.Set] given a pointer stores the pointed value, and the zero value of
    the field's type for a nil pointer. *)
Definition string_of_ptr (p : option string) : string :=
  match p with Some s => s | None => "" end.

Definition int_of_ptr (p : option Z) : Z :=
  match p with Some z => z | None => 0%Z end.

(** ** Helpers of the repository that the file calls *)

(** Modelled from the spec: [pointer.FromInt32] and [pointer.FromString]
    (package [helpers/pointer]) are not in the source file.  Section 4.4 has
    the ports populated directly from the desired state; the field is an
    [*int32], so the Go [int] is converted to 32 bits, which wraps. *)
Definition wrap_int32 (z : Z) : Z :=
  ((z + 2 ^ 31) mod 2 ^ 32 - 2 ^ 31)%Z.

Definition FromInt32 (i : Z) : option Z := Some (wrap_int32 i).

Definition FromString (s : string) : option string := Some s.

(** Modelled from the spec: the Sub-Resource Locator of section 4.3, a linear
    scan of a collection comparing by exact name, which answers the element
    and its position, or that there is none.  An element without a name
    matches no name. *)
Fixpoint locateByName {A : Type} (nameOf : A -> option string) (wanted : string)
  (l : list A) (i : nat) : option (A * nat) :=
  match l with
  | [] => None
  | x :: rest =>
      match nameOf x with
      | Some n => if String.eqb n wanted then Some (x, i)
                  else locateByName nameOf wanted rest (S i)
      | None => locateByName nameOf wanted rest (S i)
      end
  end.

(** Modelled from the spec: [findLoadBalancerNatPoolByName] is not in the
    source file; it is the locator of section 4.3 over the NAT-pool
    collection of the aggregate.  An absent collection holds no element. *)
Definition findLoadBalancerNatPoolByName (lb : LoadBalancer) (wanted : string)
  : option (InboundNatPool * nat) :=
  match lb_Properties lb with
  | None => None
  | Some p =>
      match InboundNatPools p with
      | None => None
      | Some pools => locateByName pool_Name wanted pools 0
      end
  end.

(** Modelled from the spec: [findLoadBalancerFrontEndIpConfigurationByName]
    is not in the source file; section 4.4 has it follow the locator pattern
    over the sibling collection of frontend IP configurations. *)
Definition findLoadBalancerFrontEndIpConfigurationByName (lb : LoadBalancer)
  (wanted : string) : option FrontendIPConfiguration :=
  match lb_Properties lb with
  | None => None
  | Some p =>
      match FrontendIPConfigurations p with
      | None => None
      | Some feips =>
          match locateByName feip_Name wanted feips 0 with
          | Some (x, _) => Some x
          | None => None
          end
      end
  end.

(** The parsed form of a resource identifier, as [parseAzureResourceID]
    answers it.  [Path] is a Go map; a key that is not there reads as the
    empty string. *)
Record ResourceID : Type := mkResourceID {
  SubscriptionID : string;
  ResourceGroup : string;
  Provider : string;
  Path : list (string * string)
}.

Fixpoint Path_get (m : list (string * string)) (key : string) : string :=
  match m with
  | [] => ""
  | (k, v) :: rest => if String.eqb k key then v else Path_get rest key
  end.

(** ** Slices *)

(** [append(s[:i], s[i+1:]...)]: the slice without position [i]; the slice
    expression [s[i+1:]] panics when [i+1] exceeds the length. *)
Definition remove_at {A : Type} (i : nat) (s : list A) : option (list A) :=
  if Nat.leb (S i) (length s) then Some (firstn i s ++ skipn (S i) s) else None.

(** ** The calls the operations make *)

(** Modelled from the spec: [retrieveLoadBalancerById] is not in the source
    file.  Section 4.2 gives the Aggregate Fetcher three outcomes: found with
    data, not found, and an error. *)
Inductive FetchResult : Type :=
| FetchFound (lb : LoadBalancer)
| FetchNotFound
| FetchError (err : error).

(** [resource.StateChangeConf]; [Refresh] is
    [loadbalancerStateRefreshFunc(ctx, client, resGroup, loadBalancerName)],
    kept by its two arguments; [Timeout] in nanoseconds. *)
Record StateChangeConf : Type := mkStateChangeConf {
  Pending : list string;
  Target : list string;
  Refresh : string * string;
  Timeout : Z
}.

Definition Minute : Z := (60 * 1000000000)%Z.

Inductive Event : Type -> Type :=
| LocksByID (id : string) : Event unit
| LocksUnlockByID (id : string) : Event unit
| RetrieveLoadBalancerById (loadBalancerId : string) : Event FetchResult
| CreateOrUpdate (resGroup loadBalancerName : string) (lb : LoadBalancer)
    : Event (option error)
| WaitForCompletionRef : Event (option error)
| ClientGet (resGroup loadBalancerName : string) : Event (error + LoadBalancer)
| WaitForState (conf : StateChangeConf) : Event (option error)
| LogPrintf (format : string) (args : list string) : Event unit.

(** A program: it returns, or makes a call and goes on with the answer. *)
Inductive Prog (A : Type) : Type :=
| Ret (a : A)
| Vis {R : Type} (e : Event R) (k : R -> Prog A).

Arguments Ret {A} a.
Arguments Vis {A R} e k.

Fixpoint bind {A B : Type} (p : Prog A) (f : A -> Prog B) : Prog B :=
  match p with
  | Ret a => f a
  | Vis e k => Vis e (fun r => bind (k r) f)
  end.

Notation "x <- e ;; k" := (Vis e (fun x => k))
  (at level 61, e at next level, right associativity).
Notation "e ;;; k" := (Vis e (fun _ => k))
  (at level 61, right associativity).

(** [defer cleanup] around a body: the deferred call runs when the body
    ends, whether it returned or panicked. *)
Definition defer {A : Type} (cleanup : Event unit) (body : Prog A) : Prog A :=
  bind body (fun r => cleanup ;;; Ret r).

(** One call of a trace, with the answer it got. *)
Inductive Entry : Type :=
| Called {R : Type} (e : Event R) (r : R).

(** [Exec p tr a]: [p] can make the calls of [tr], get their answers, and
    end with [a]. *)
Fixpoint Exec {A : Type} (p : Prog A) (tr : list Entry) (a : A) : Prop :=
  match p with
  | Ret x => tr = [] /\ a = x
  | Vis e k => exists r tr', tr = Called e r :: tr' /\ Exec (k r) tr' a
  end.

(** An environment: a state and the answer to each call. *)
Record World : Type := mkWorld {
  wstate : Type;
  answer : forall R : Type, Event R -> wstate -> R * wstate
}.

Fixpoint run {A : Type} (W : World) (p : Prog A) (w : wstate W)
  : A * list Entry :=
  match p with
  | Ret a => (a, [])
  | Vis e k =>
      let (r, w') := answer W _ e w in
      let (a, tr) := run W (k r) w' in
      (a, Called e r :: tr)
  end.

(** ** The element builder *)

(** [expandAzureRmLoadBalancerNatPool], lines 269-292. *)
Definition expandAzureRmLoadBalancerNatPool (d : ResourceData) (lb : LoadBalancer)
  : error + InboundNatPool :=
  let properties :=
    mkInboundNatPoolPropertiesFormat None (protocol d)
      (FromInt32 (frontend_port_start d))
      (FromInt32 (frontend_port_end d))
      (FromInt32 (backend_port d)) in
  let v := frontend_ip_configuration_name d in
  if negb (String.eqb v "") then
    match findLoadBalancerFrontEndIpConfigurationByName lb v with
    | None =>
        inl (Errorf "Cannot find FrontEnd IP Configuration with the name %s" [v])
    | Some rule =>
        let properties :=
          mkInboundNatPoolPropertiesFormat
            (Some (mkSubResource (feip_ID rule)))
            (Protocol properties) (FrontendPortRangeStart properties)
            (FrontendPortRangeEnd properties) (BackendPort properties) in
        inr (mkInboundNatPool None (FromString (name d)) (Some properties))
    end
  else
    inr (mkInboundNatPool None (FromString (name d)) (Some properties)).

(** ** The local mutation of the collection *)

(** Lines 108-116 of create/update: the new element is appended to the
    fetched collection, then the element the locator found under the desired
    name, if any, is cut out of the result. *)
Definition workingNatPools (d : ResourceData) (loadBalancer : LoadBalancer)
  (newNatPool : InboundNatPool) : panic + list InboundNatPool :=
  match deref_InboundNatPools loadBalancer with
  | None => inl NilDereference
  | Some pools =>
      let natPools := pools ++ [newNatPool] in
      match findLoadBalancerNatPoolByName loadBalancer (name d) with
      | Some (existingNatPool, existingNatPoolIndex) =>
          match pool_Name existingNatPool with
          | None => inl NilDereference
          | Some existingName =>
              if String.eqb (name d) existingName then
                match remove_at existingNatPoolIndex natPools with
                | Some natPools' => inr natPools'
                | None => inl SliceBoundsOutOfRange
                end
              else inr natPools
          end
      | None => inr natPools
      end
  end.

(** Lines 142-147 of create/update: the loop over the re-fetched collection
    that keeps the identifier of the elements carrying the desired name.  It
    dereferences the name of every element, and the identifier of every
    element that matches. *)
Fixpoint scanNatPoolId (wanted : string) (pools : list InboundNatPool)
  (natPoolId : string) : panic + string :=
  match pools with
  | [] => inr natPoolId
  | InboundNatPool :: rest =>
      match pool_Name InboundNatPool with
      | None => inl NilDereference
      | Some n =>
          if String.eqb n wanted then
            match pool_ID InboundNatPool with
            | None => inl NilDereference
            | Some i => scanNatPoolId wanted rest i
            end
          else scanNatPoolId wanted rest natPoolId
      end
  end.

(** The polling configuration of lines 157-162. *)
Definition stateConf (resGroup loadBalancerName : string) : StateChangeConf :=
  mkStateChangeConf ["Accepted"; "Updating"] ["Succeeded"]
    (resGroup, loadBalancerName) (10 * Minute).

(** ** The operations *)

Section Provider.

(** The two identifier parsers of the repository are not in the source file;
    the operations are embedded over any pair of them. *)
Variable resourceGroupAndLBNameFromId : string -> error + (string * string).
Variable parseAzureResourceID : string -> error + ResourceID.

(** [resourceArmLoadBalancerNatPoolRead], lines 170-215. *)
Definition resourceArmLoadBalancerNatPoolRead (d : ResourceData)
  : Prog (ResourceData * Outcome) :=
  match parseAzureResourceID (Id d) with
  | inl err => Ret (d, Returned (Some err))
  | inr id =>
    let name' := Path_get (Path id) "inboundNatPools" in
    fetched <- RetrieveLoadBalancerById (loadbalancer_id d) ;;
    match fetched with
    | FetchError err =>
        Ret (d, Returned (Some (ErrorfV "retrieving Load Balancer by ID: %+v" [] err)))
    | FetchNotFound =>
        let d := SetId "" d in
        LogPrintf "[INFO] LoadBalancer %q not found. Removing from state" [name'] ;;;
        Ret (d, Returned None)
    | FetchFound loadBalancer =>
      match findLoadBalancerNatPoolByName loadBalancer name' with
      | None =>
          let d := SetId "" d in
          LogPrintf "[INFO] LoadBalancer Nat Pool %q not found. Removing from state"
            [name'] ;;;
          Ret (d, Returned None)
      | Some (config, _) =>
        let d := Set_name (string_of_ptr (pool_Name config)) d in
        let d := Set_resource_group_name (ResourceGroup id) d in
        match pool_Properties config with
        | None => Ret (d, Returned None)
        | Some props =>
          let d := Set_protocol (Protocol props) d in
          let d := Set_frontend_port_start (int_of_ptr (FrontendPortRangeStart props)) d in
          let d := Set_frontend_port_end (int_of_ptr (FrontendPortRangeEnd props)) d in
          let d := Set_backend_port (int_of_ptr (BackendPort props)) d in
          match FrontendIPConfiguration_ref props with
          | None => Ret (d, Returned None)
          | Some feipConfig =>
            match sub_ID feipConfig with
            | None => Ret (d, Panicked NilDereference)
            | Some feipID =>
              match parseAzureResourceID feipID with
              | inl err => Ret (d, Returned (Some err))
              | inr fipID =>
                let d := Set_frontend_ip_configuration_name
                           (Path_get (Path fipID) "frontendIPConfigurations") d in
                let d := Set_frontend_ip_configuration_id feipID d in
                Ret (d, Returned None)
              end
            end
          end
        end
      end
    end
  end.

(** Create/update from the re-fetch on, lines 134-167. *)
Definition confirmCreateUpdate (d : ResourceData) (resGroup loadBalancerName : string)
  : Prog (ResourceData * Outcome) :=
  read <- ClientGet resGroup loadBalancerName ;;
  match read with
  | inl err =>
      Ret (d, Returned (Some (ErrorfV
        "retrieving Load Balancer %q (Resource Group %q): %+v"
        [loadBalancerName; resGroup] err)))
  | inr read =>
    match lb_ID read with
    | None =>
        Ret (d, Returned (Some (Errorf
          "Cannot read LoadBalancer %q (Resource Group %q) ID"
          [loadBalancerName; resGroup])))
    | Some _ =>
      match deref_InboundNatPools read with
      | None => Ret (d, Panicked NilDereference)
      | Some pools =>
        match scanNatPoolId (name d) pools "" with
        | inl p => Ret (d, Panicked p)
        | inr natPoolId =>
          if String.eqb natPoolId "" then
            Ret (d, Returned (Some (Errorf
              "Cannot find created LoadBalancer NAT Pool ID %q" [natPoolId])))
          else
            let d := SetId natPoolId d in
            LogPrintf "[DEBUG] Waiting for LoadBalancer (%q) to become available"
              [loadBalancerName] ;;;
            err <- WaitForState (stateConf resGroup loadBalancerName) ;;
            match err with
            | Some err =>
                Ret (d, Returned (Some (ErrorfV
                  "waiting for LoadBalancer (%q - Resource Group %q) to become available: %+v"
                  [loadBalancerName; resGroup] err)))
            | None => resourceArmLoadBalancerNatPoolRead d
            end
        end
      end
    end
  end.

(** Create/update between the lock and its deferred release, lines 93-132. *)
Definition bodyCreateUpdate (d : ResourceData) : Prog (ResourceData * Outcome) :=
  fetched <- RetrieveLoadBalancerById (loadbalancer_id d) ;;
  match fetched with
  | FetchError err =>
      Ret (d, Returned (Some (Wrapf "Error Getting LoadBalancer By ID {{err}}" err)))
  | FetchNotFound =>
      let d := SetId "" d in
      LogPrintf "[INFO] LoadBalancer %q not found. Removing from state" [name d] ;;;
      Ret (d, Returned None)
  | FetchFound loadBalancer =>
    match expandAzureRmLoadBalancerNatPool d loadBalancer with
    | inl err =>
        Ret (d, Returned (Some (Wrapf "Error Expanding NAT Pool {{err}}" err)))
    | inr newNatPool =>
      match workingNatPools d loadBalancer newNatPool with
      | inl p => Ret (d, Panicked p)
      | inr natPools =>
        match set_InboundNatPools loadBalancer natPools with
        | None => Ret (d, Panicked NilDereference)
        | Some loadBalancer =>
          match resourceGroupAndLBNameFromId (loadbalancer_id d) with
          | inl err =>
              Ret (d, Returned (Some (Wrapf
                "Error Getting LoadBalancer Name and Group: {{err}}" err)))
          | inr (resGroup, loadBalancerName) =>
            err <- CreateOrUpdate resGroup loadBalancerName loadBalancer ;;
            match err with
            | Some err =>
                Ret (d, Returned (Some (ErrorfV
                  "Creating/Updating Load Balancer %q (Resource Group %q): %+v"
                  [loadBalancerName; resGroup] err)))
            | None =>
              err <- WaitForCompletionRef ;;
              match err with
              | Some err =>
                  Ret (d, Returned (Some (ErrorfV
                    "waiting for the completion of Load Balancer %q (Resource Group %q): %+v"
                    [loadBalancerName; resGroup] err)))
              | None => confirmCreateUpdate d resGroup loadBalancerName
              end
            end
          end
        end
      end
    end
  end.

(** [resourceArmLoadBalancerNatPoolCreateUpdate], lines 85-168. *)
Definition resourceArmLoadBalancerNatPoolCreateUpdate (d : ResourceData)
  : Prog (ResourceData * Outcome) :=
  let loadBalancerID := loadbalancer_id d in
  LocksByID loadBalancerID ;;;
  defer (LocksUnlockByID loadBalancerID) (bodyCreateUpdate d).

(** Delete between the lock and its deferred release, lines 225-266. *)
Definition bodyDelete (d : ResourceData) : Prog (ResourceData * Outcome) :=
  fetched <- RetrieveLoadBalancerById (loadbalancer_id d) ;;
  match fetched with
  | FetchError err =>
      Ret (d, Returned (Some (ErrorfV "retrieving LoadBalancer by ID: %+v" [] err)))
  | FetchNotFound =>
      let d := SetId "" d in
      Ret (d, Returned None)
  | FetchFound loadBalancer =>
    match findLoadBalancerNatPoolByName loadBalancer (name d) with
    | None => Ret (d, Returned None)
    | Some (_, index) =>
      match deref_InboundNatPools loadBalancer with
      | None => Ret (d, Panicked NilDereference)
      | Some pools =>
        match remove_at index pools with
        | None => Ret (d, Panicked SliceBoundsOutOfRange)
        | Some pools =>
          match set_InboundNatPools loadBalancer pools with
          | None => Ret (d, Panicked NilDereference)
          | Some loadBalancer =>
            match resourceGroupAndLBNameFromId (loadbalancer_id d) with
            | inl err =>
                Ret (d, Returned (Some (Wrapf
                  "Error Getting LoadBalancer Name and Group: {{err}}" err)))
            | inr (resGroup, loadBalancerName) =>
              err <- CreateOrUpdate resGroup loadBalancerName loadBalancer ;;
              match err with
              | Some err =>
                  Ret (d, Returned (Some (ErrorfV
                    "creating/updating Load Balancer %q (Resource Group %q): %+v"
                    [loadBalancerName; resGroup] err)))
              | None =>
                err <- WaitForCompletionRef ;;
                match err with
                | Some err =>
                    Ret (d, Returned (Some (ErrorfV
                      "waiting for completion of the Load Balancer %q (Resource Group %q): %+v"
                      [loadBalancerName; resGroup] err)))
                | None =>
                  read <- ClientGet resGroup loadBalancerName ;;
                  match read with
                  | inl err =>
                      Ret (d, Returned (Some (ErrorfV
                        "retrieving Load Balancer: %+v" [] err)))
                  | inr read =>
                    match lb_ID read with
                    | None =>
                        Ret (d, Returned (Some (Errorf
                          "Cannot read LoadBalancer %q (Resource Group %q) ID"
                          [loadBalancerName; resGroup])))
                    | Some _ => Ret (d, Returned None)
                    end
                  end
                end
              end
            end
          end
        end
      end
    end
  end.

(** [resourceArmLoadBalancerNatPoolDelete], lines 217-267. *)
Definition resourceArmLoadBalancerNatPoolDelete (d : ResourceData)
  : Prog (ResourceData * Outcome) :=
  let loadBalancerID := loadbalancer_id d in
  LocksByID loadBalancerID ;;;
  defer (LocksUnlockByID loadBalancerID) (bodyDelete d).

End Provider.

(** ** Observing a trace *)

(** The answers of the Aggregate Fetcher, in order. *)
Fixpoint fetches (tr : list Entry) : list FetchResult :=
  match tr with
  | [] => []
  | Called e r :: rest =>
      match e in Event R return R -> list FetchResult with
      | RetrieveLoadBalancerById _ => fun r => r :: fetches rest
      | _ => fun _ => fetches rest
      end r
  end.

Definition first_fetch (tr : list Entry) : option FetchResult :=
  hd_error (fetches tr).

(** The aggregates handed to [CreateOrUpdate], in order. *)
Fixpoint submitted (tr : list Entry) : list LoadBalancer :=
  match tr with
  | [] => []
  | Called e _ :: rest =>
      match e with
      | CreateOrUpdate _ _ lb => lb :: submitted rest
      | _ => submitted rest
      end
  end.

(** The answers of the re-fetch [client.Get], in order. *)
Fixpoint refetched (tr : list Entry) : list (error + LoadBalancer) :=
  match tr with
  | [] => []
  | Called e r :: rest =>
      match e in Event R return R -> list (error + LoadBalancer) with
      | ClientGet _ _ => fun r => r :: refetched rest
      | _ => fun _ => refetched rest
      end r
  end.

Definition is_lock_call (en : Entry) : bool :=
  match en with
  | Called e _ =>
      match e with
      | LocksByID _ | LocksUnlockByID _ => true
      | _ => false
      end
  end.

(** The calls that reach the remote system. *)
Definition is_remote_call (en : Entry) : bool :=
  match en with
  | Called e _ =>
      match e with
      | RetrieveLoadBalancerById _ | CreateOrUpdate _ _ _ | WaitForCompletionRef
      | ClientGet _ _ | WaitForState _ => true
      | _ => false
      end
  end.

(** The steps of the submit protocol. *)
Inductive Step : Type :=
| Submit
| CompletionWait
| Refetch
| StatePoll.

Definition step_of (en : Entry) : option Step :=
  match en with
  | Called e _ =>
      match e with
      | CreateOrUpdate _ _ _ => Some Submit
      | WaitForCompletionRef => Some CompletionWait
      | ClientGet _ _ => Some Refetch
      | WaitForState _ => Some StatePoll
      | _ => None
      end
  end.

Fixpoint protocol_steps (tr : list Entry) : list Step :=
  match tr with
  | [] => []
  | en :: rest =>
      match step_of en with
      | Some s => s :: protocol_steps rest
      | None => protocol_steps rest
      end
  end.

Definition is_step (s : Step) (en : Entry) : bool :=
  match step_of en, s with
  | Some Submit, Submit | Some CompletionWait, CompletionWait
  | Some Refetch, Refetch | Some StatePoll, StatePoll => true
  | _, _ => false
  end.

(** The polling configuration a [WaitForState] call of the trace carries. *)
Definition poll_conf (en : Entry) : option StateChangeConf :=
  match en with
  | Called e _ =>
      match e with
      | WaitForState conf => Some conf
      | _ => None
      end
  end.

(** [precedes P Q tr]: every call of [tr] that satisfies [P] is made before
    every call that satisfies [Q]. *)
Definition precedes (P Q : Entry -> bool) (tr : list Entry) : Prop :=
  forall i j x y,
    nth_error tr i = Some x -> nth_error tr j = Some y ->
    P x = true -> Q y = true -> (i < j)%nat.

(** ** Collections of an aggregate *)

(** The elements of the two collections; an absent collection has none. *)
Definition natPoolsOf (lb : LoadBalancer) : list InboundNatPool :=
  match deref_InboundNatPools lb with
  | Some pools => pools
  | None => []
  end.

Definition frontendConfigsOf (lb : LoadBalancer) : list FrontendIPConfiguration :=
  match lb_Properties lb with
  | Some p =>
      match FrontendIPConfigurations p with
      | Some l => l
      | None => []
      end
  | None => []
  end.

(** [carries n x]: the NAT pool [x] has the name [n]. *)
Definition carries (n : string) (x : InboundNatPool) : bool :=
  match pool_Name x with
  | Some m => String.eqb m n
  | None => false
  end.

(** The invariant of the data model: within one collection, names are
    unique. *)
Definition names_unique (pools : list InboundNatPool) : Prop :=
  forall n, (length (filter (carries n) pools) <= 1)%nat.

(** A NAT pool without the identifier the remote system assigns. *)
Definition without_ID (x : InboundNatPool) : InboundNatPool :=
  mkInboundNatPool None (pool_Name x) (pool_Properties x).

(** The fields of the desired state, and of the observed one. *)
Record Fields : Type := mkFields {
  f_name : string;
  f_protocol : string;
  f_frontend_port_start : Z;
  f_frontend_port_end : Z;
  f_backend_port : Z;
  f_frontend_ip_configuration_name : string
}.

Definition fields_of (d : ResourceData) : Fields :=
  mkFields (name d) (protocol d) (frontend_port_start d) (frontend_port_end d)
    (backend_port d) (frontend_ip_configuration_name d).

(** [validate.PortNumber] admits the numbers a port can have. *)
Definition valid_port (p : Z) : Prop := (0 <= p <= 65535)%Z.

(** ** A scripted environment

    The answers of the remote system are read off a script, one list per
    call; the locks and the log answer nothing.  When a list has run out the
    call answers not-found, or an error for the re-fetch, or success. *)

Record Script : Type := mkScript {
  s_fetch : list FetchResult;
  s_submit : list (option error);
  s_completion : list (option error);
  s_get : list (error + LoadBalancer);
  s_poll : list (option error)
}.

Definition scripted_answer (R : Type) (e : Event R) (s : Script) : R * Script :=
  match e in Event R return R * Script with
  | LocksByID _ => (tt, s)
  | LocksUnlockByID _ => (tt, s)
  | RetrieveLoadBalancerById _ =>
      (hd FetchNotFound (s_fetch s),
       mkScript (tl (s_fetch s)) (s_submit s) (s_completion s) (s_get s) (s_poll s))
  | CreateOrUpdate _ _ _ =>
      (hd None (s_submit s),
       mkScript (s_fetch s) (tl (s_submit s)) (s_completion s) (s_get s) (s_poll s))
  | WaitForCompletionRef =>
      (hd None (s_completion s),
       mkScript (s_fetch s) (s_submit s) (tl (s_completion s)) (s_get s) (s_poll s))
  | ClientGet _ _ =>
      (hd (inl (ErrNew "no answer")) (s_get s),
       mkScript (s_fetch s) (s_submit s) (s_completion s) (tl (s_get s)) (s_poll s))
  | WaitForState _ =>
      (hd None (s_poll s),
       mkScript (s_fetch s) (s_submit s) (s_completion s) (s_get s) (tl (s_poll s)))
  | LogPrintf _ _ => (tt, s)
  end.

Definition scripted : World := mkWorld Script scripted_answer.

(** ** A parser of identifiers, for the examples

    Identifiers are paths [/key/value/key/value...]; the parser pairs the
    segments up, and reads the resource group off the pair
    [resourceGroups]. *)

Fixpoint split_slash (s : string) (cur : string) : list string :=
  match s with
  | EmptyString => [cur]
  | String c rest =>
      if Ascii.eqb c "/"%char then cur :: split_slash rest ""
      else split_slash rest (cur ++ String c "")%string
  end.

Fixpoint pair_up (l : list string) : option (list (string * string)) :=
  match l with
  | [] => Some []
  | [_] => None
  | k :: v :: rest =>
      match pair_up rest with
      | Some ps => Some ((k, v) :: ps)
      | None => None
      end
  end.

Definition example_parseAzureResourceID (id : string) : error + ResourceID :=
  let segs := filter (fun s => negb (String.eqb s "")) (split_slash id "") in
  match pair_up segs with
  | None => inl (ErrNew "The number of path segments is not divisible by 2")
  | Some ps =>
      inr (mkResourceID (Path_get ps "subscriptions") (Path_get ps "resourceGroups")
             (Path_get ps "providers") ps)
  end.

Definition example_resourceGroupAndLBNameFromId (id : string)
  : error + (string * string) :=
  match example_parseAzureResourceID id with
  | inl err => inl err
  | inr r => inr (ResourceGroup r, Path_get (Path r) "loadBalancers")
  end.

(** ** Example data: the desired state of the spec's example *)

Definition example_lb_id : string :=
  "/subscriptions/sub1/resourceGroups/rg1/providers/Microsoft.Network/loadBalancers/lb1".

Definition example_feip : FrontendIPConfiguration :=
  mkFrontendIPConfiguration
    (Some (example_lb_id ++ "/frontendIPConfigurations/feip1")%string)
    (Some "feip1").

Definition example_lb (pools : list InboundNatPool) : LoadBalancer :=
  mkLoadBalancer (Some example_lb_id) (Some "lb1")
    (Some (mkLoadBalancerPropertiesFormat (Some [example_feip]) (Some pools)
             (Some "Succeeded"))).

Definition example_d : ResourceData :=
  mkResourceData "" "pool1" "rg1" example_lb_id "Tcp" 50000 50100 22 "feip1" "".

(** A pool of the same name with other ports, as an earlier apply left it. *)
Definition example_old_pool : InboundNatPool :=
  mkInboundNatPool
    (Some (example_lb_id ++ "/inboundNatPools/pool1")%string) (Some "pool1")
    (Some (mkInboundNatPoolPropertiesFormat
             (Some (mkSubResource (feip_ID example_feip))) "Tcp"
             (Some 40000%Z) (Some 40100%Z) (Some 22%Z))).

Definition example_other_pool : InboundNatPool :=
  mkInboundNatPool
    (Some (example_lb_id ++ "/inboundNatPools/pool0")%string) (Some "pool0")
    (Some (mkInboundNatPoolPropertiesFormat
             (Some (mkSubResource (feip_ID example_feip))) "Udp"
             (Some 30000%Z) (Some 30100%Z) (Some 53%Z))).

(** The element the builder makes for [example_d], and the same element with
    the identifier the remote system gives it. *)
Definition example_new_pool : InboundNatPool :=
  mkInboundNatPool None (Some "pool1")
    (Some (mkInboundNatPoolPropertiesFormat
             (Some (mkSubResource (feip_ID example_feip))) "Tcp"
             (Some 50000%Z) (Some 50100%Z) (Some 22%Z))).

Definition example_stored_pool : InboundNatPool :=
  mkInboundNatPool
    (Some (example_lb_id ++ "/inboundNatPools/pool1")%string)
    (pool_Name example_new_pool) (pool_Properties example_new_pool).

Definition example_CreateUpdate :=
  resourceArmLoadBalancerNatPoolCreateUpdate
    example_resourceGroupAndLBNameFromId example_parseAzureResourceID.

Definition example_Read :=
  resourceArmLoadBalancerNatPoolRead example_parseAzureResourceID.

Definition example_Delete :=
  resourceArmLoadBalancerNatPoolDelete example_resourceGroupAndLBNameFromId.

(** ** Predicates on traces *)

(** A call that is neither a lock call nor a step of the submit protocol. *)
Definition quiet (en : Entry) : bool :=
  negb (is_lock_call en) &&
  match step_of en with None => true | Some _ => false end.

(** The trace of a locked operation, around the trace of its body. *)
Definition locked (id : string) (tr1 : list Entry) : list Entry :=
  Called (LocksByID id) tt :: tr1 ++ [Called (LocksUnlockByID id) tt].

(** What follows a submit in create/update: nothing when the submit failed,
    the wait for completion, and after a completed wait the re-fetch and
    what follows it. *)
Definition after_submit (resGroup loadBalancerName : string)
  (e : option error) (rest : list Entry) : Prop :=
  (e <> None /\ rest = []) \/
  (e = None /\ exists e', e' <> None /\ rest = [Called WaitForCompletionRef e']) \/
  (e = None /\ exists g rest',
     rest = Called WaitForCompletionRef None
            :: Called (ClientGet resGroup loadBalancerName) g :: rest' /\
     (rest' = [] \/
      exists fmt args e' rest'',
        rest' = Called (LogPrintf fmt args) tt
                :: Called (WaitForState (stateConf resGroup loadBalancerName)) e'
                :: rest'' /\
        forallb quiet rest'' = true)).

Definition no_lock_call (tr : list Entry) : Prop :=
  forallb (fun en => negb (is_lock_call en)) tr = true.

(** Delete did nothing: it returned nil, submitted nothing, and its trace is
    the lock, the fetch and the unlock. *)
Definition nothing_done (d : ResourceData) (tr : list Entry) (res : Outcome)
  : Prop :=
  res = Returned None /\ submitted tr = [] /\
  exists f, tr = [Called (LocksByID (loadbalancer_id d)) tt;
                  Called (RetrieveLoadBalancerById (loadbalancer_id d)) f;
                  Called (LocksUnlockByID (loadbalancer_id d)) tt].

(** A decision procedure for [precedes]. *)
Fixpoint precedesb (P Q : Entry -> bool) (tr : list Entry) : bool :=
  match tr with
  | [] => true
  | x :: rest =>
      (negb (Q x) || (negb (P x) && forallb (fun y => negb (P y)) rest))
      && precedesb P Q rest
  end.

(** The polling configuration of a call, when it is a poll, has the pending
    states Accepted and Updating and the target state Succeeded. *)
Definition poll_ok (en : Entry) : Prop :=
  forall conf, poll_conf en = Some conf ->
    Pending conf = ["Accepted"; "Updating"] /\ Target conf = ["Succeeded"].

(** The order the spec gives the polling: after the submit and before the
    re-fetch. *)
Definition polling_between_submit_and_refetch (tr : list Entry) : Prop :=
  precedes (is_step Submit) (is_step StatePoll) tr /\
  precedes (is_step StatePoll) (is_step Refetch) tr.

Definition protocol_order : list Step :=
  [Submit; CompletionWait; Refetch; StatePoll].

Definition protocol_ok (tr : list Entry) : Prop :=
  precedesb (is_step Submit) (is_step CompletionWait) tr = true /\
  precedesb (is_step CompletionWait) (is_step Refetch) tr = true /\
  precedesb (is_step Refetch) (is_step StatePoll) tr = true /\
  (exists k, protocol_steps tr = firstn k protocol_order) /\
  Forall poll_ok tr.

(** ** The operations run in scripted environments *)

(** An update: the parent holds [pool0] and an older [pool1]. *)
Definition script_update : Script :=
  mkScript
    [FetchFound (example_lb [example_other_pool; example_old_pool]);
     FetchFound (example_lb [example_other_pool; example_stored_pool])]
    [] []
    [inr (example_lb [example_other_pool; example_stored_pool])]
    [].

Definition example_update_trace : list Entry :=
  Eval vm_compute in
    snd (run scripted (example_CreateUpdate example_d) script_update).

Definition example_d1 : ResourceData :=
  Eval vm_compute in
    fst (fst (run scripted (example_CreateUpdate example_d) script_update)).

(** A read after it. *)
Definition script_read : Script :=
  mkScript [FetchFound (example_lb [example_other_pool; example_stored_pool])]
    [] [] [] [].

Definition example_read_trace : list Entry :=
  Eval vm_compute in snd (run scripted (example_Read example_d1) script_read).

Definition example_d2 : ResourceData :=
  Eval vm_compute in
    fst (fst (run scripted (example_Read example_d1) script_read)).

(** The parent is gone. *)
Definition script_gone : Script := mkScript [FetchNotFound] [] [] [] [].

Definition example_gone_trace : list Entry :=
  Eval vm_compute in
    snd (run scripted (example_CreateUpdate example_d) script_gone).

(** A desired state that names a frontend IP configuration the parent does
    not have, and one that names none. *)
Definition example_d_missing : ResourceData :=
  mkResourceData "" "pool1" "rg1" example_lb_id "Tcp" 50000 50100 22 "missing" "".

Definition example_d_unnamed : ResourceData :=
  mkResourceData "" "pool1" "rg1" example_lb_id "Tcp" 50000 50100 22 "" "".

Definition script_empty_parent : Script :=
  mkScript [FetchFound (example_lb [])] [] [] [] [].

Definition example_missing_trace : list Entry :=
  Eval vm_compute in
    snd (run scripted (example_CreateUpdate example_d_missing) script_empty_parent).

Definition example_missing_error : error :=
  Wrapf "Error Expanding NAT Pool {{err}}"
    (Errorf "Cannot find FrontEnd IP Configuration with the name %s" ["missing"]).

(** The re-fetch answers an aggregate with its identifier and without its
    properties. *)
Definition example_lb_without_properties : LoadBalancer :=
  mkLoadBalancer (Some example_lb_id) (Some "lb1") None.

Definition script_refetch_without_properties : Script :=
  mkScript [FetchFound (example_lb [])] [] []
    [inr example_lb_without_properties] [].

(** Two deletes in a row: the second one fetches what the first submitted. *)
Definition script_delete_first : Script :=
  mkScript [FetchFound (example_lb [example_other_pool; example_old_pool])]
    [] [] [inr (example_lb [example_other_pool])] [].

Definition example_delete_first_trace : list Entry :=
  Eval vm_compute in
    snd (run scripted (example_Delete example_d) script_delete_first).

Definition script_delete_second : Script :=
  mkScript [FetchFound (example_lb [example_other_pool])] [] [] [] [].

Definition example_delete_second_trace : list Entry :=
  Eval vm_compute in
    snd (run scripted (example_Delete example_d) script_delete_second).

(** ** Further observers of a trace *)

(** [wraps inner e]: the error [e] is [inner], or was built around it by
    [fmt.Errorf] with [%+v] or by [errwrap.Wrapf]. *)
Fixpoint wraps (inner : error) (e : error) : Prop :=
  e = inner \/
  match e with
  | ErrorfV _ _ e' => wraps inner e'
  | Wrapf _ e' => wraps inner e'
  | _ => False
  end.

(** The error a remote call answered, when it failed. *)
Definition failure_of (en : Entry) : option error :=
  match en with
  | Called e r =>
      match e in Event R return R -> option error with
      | RetrieveLoadBalancerById _ =>
          fun r => match r with FetchError err => Some err | _ => None end
      | CreateOrUpdate _ _ _ => fun r => r
      | WaitForCompletionRef => fun r => r
      | ClientGet _ _ =>
          fun r => match r with inl err => Some err | inr _ => None end
      | WaitForState _ => fun r => r
      | _ => fun _ => None
      end r
  end.

Fixpoint remote_failures (tr : list Entry) : list error :=
  match tr with
  | [] => []
  | en :: rest =>
      match failure_of en with
      | Some err => err :: remote_failures rest
      | None => remote_failures rest
      end
  end.

(** No remote call is made after a remote call has failed. *)
Definition nothing_after_failure (tr : list Entry) : Prop :=
  forall i j x y,
    nth_error tr i = Some x -> nth_error tr j = Some y ->
    failure_of x <> None -> is_remote_call y = true -> (j <= i)%nat.

Fixpoint nothing_after_failureb (tr : list Entry) : bool :=
  match tr with
  | [] => true
  | x :: rest =>
      match failure_of x with
      | Some _ => forallb (fun y => negb (is_remote_call y)) rest
      | None => true
      end && nothing_after_failureb rest
  end.

(** The identifiers the locks and the fetches of a trace are keyed by. *)
Fixpoint keys (tr : list Entry) : list string :=
  match tr with
  | [] => []
  | Called e _ :: rest =>
      match e with
      | LocksByID id | LocksUnlockByID id | RetrieveLoadBalancerById id =>
          id :: keys rest
      | _ => keys rest
      end
  end.

(** The resource group and load balancer name the client calls and the
    polling of a trace are addressed to. *)
Fixpoint targets (tr : list Entry) : list (string * string) :=
  match tr with
  | [] => []
  | Called e _ :: rest =>
      match e with
      | CreateOrUpdate resGroup loadBalancerName _
      | ClientGet resGroup loadBalancerName =>
          (resGroup, loadBalancerName) :: targets rest
      | WaitForState conf => Refresh conf :: targets rest
      | _ => targets rest
      end
  end.

(** The parts of an aggregate the operations do not edit. *)
Definition rest_of_aggregate (lb : LoadBalancer)
  : option string * option string
    * option (option (list FrontendIPConfiguration) * option string) :=
  (lb_ID lb, lb_Name lb,
   match lb_Properties lb with
   | Some p => Some (FrontendIPConfigurations p, ProvisioningState p)
   | None => None
   end).

(** ** Further example data *)

(** A parent whose NAT-pool collection is absent. *)
Definition example_lb_no_collection : LoadBalancer :=
  mkLoadBalancer (Some example_lb_id) (Some "lb1")
    (Some (mkLoadBalancerPropertiesFormat (Some [example_feip]) None
             (Some "Succeeded"))).

Definition script_no_collection : Script :=
  mkScript [FetchFound example_lb_no_collection] [] [] [] [].

(** The submit is refused. *)
Definition script_submit_fails : Script :=
  mkScript [FetchFound (example_lb [example_other_pool; example_old_pool])]
    [Some (ErrNew "conflict")] [] [] [].

(** The polling of the provisioning state times out. *)
Definition script_poll_fails : Script :=
  mkScript [FetchFound (example_lb [example_other_pool; example_old_pool])]
    [] []
    [inr (example_lb [example_other_pool; example_stored_pool])]
    [Some (ErrNew "timeout")].

(** The parent no longer holds [pool1]. *)
Definition script_read_gone : Script :=
  mkScript [FetchFound (example_lb [example_other_pool])] [] [] [] [].

(** A resource identifier the example parser rejects. *)
Definition example_d_bad_id : ResourceData :=
  mkResourceData "/subscriptions" "pool1" "rg1" example_lb_id "Tcp"
    50000 50100 22 "feip1" "".

Definition example_read_gone_trace : list Entry :=
  Eval vm_compute in
    snd (run scripted (example_Read example_d1) script_read_gone).

Definition example_submit_fails_trace : list Entry :=
  Eval vm_compute in
    snd (run scripted (example_CreateUpdate example_d) script_submit_fails).

Definition example_submit_error : error :=
  ErrorfV "Creating/Updating Load Balancer %q (Resource Group %q): %+v"
    ["lb1"; "rg1"] (ErrNew "conflict").

Definition example_no_collection_trace : list Entry :=
  Eval vm_compute in
    snd (run scripted (example_CreateUpdate example_d) script_no_collection).

Definition example_poll_fails_trace : list Entry :=
  Eval vm_compute in
    snd (run scripted (example_CreateUpdate example_d) script_poll_fails).

Definition example_poll_error : error :=
  ErrorfV
    "waiting for LoadBalancer (%q - Resource Group %q) to become available: %+v"
    ["lb1"; "rg1"] (ErrNew "timeout").

Definition example_pool1_id : string :=
  (example_lb_id ++ "/inboundNatPools/pool1")%string.

(** A delete of [pool1] that fetches what the update submitted. *)
Definition script_delete_after_update : Script :=
  mkScript [FetchFound (example_lb [example_other_pool; example_new_pool])]
    [] [] [inr (example_lb [example_other_pool])] [].

Definition example_delete_after_update_trace : list Entry :=
  Eval vm_compute in
    snd (run scripted (example_Delete example_d1) script_delete_after_update).

(** ** The remote calls of a trace, fetches included *)

Inductive RemoteCall : Type :=
| FetchCall
| ProtocolCall (s : Step).

Definition remote_call_of (en : Entry) : option RemoteCall :=
  match en with
  | Called e _ =>
      match e with
      | RetrieveLoadBalancerById _ => Some FetchCall
      | CreateOrUpdate _ _ _ => Some (ProtocolCall Submit)
      | WaitForCompletionRef => Some (ProtocolCall CompletionWait)
      | ClientGet _ _ => Some (ProtocolCall Refetch)
      | WaitForState _ => Some (ProtocolCall StatePoll)
      | _ => None
      end
  end.

Fixpoint remote_calls (tr : list Entry) : list RemoteCall :=
  match tr with
  | [] => []
  | en :: rest =>
      match remote_call_of en with
      | Some c => c :: remote_calls rest
      | None => remote_calls rest
      end
  end.

(** The remote calls of create/update in the order of the source: the fetch
    of line 93, the submit, the wait for completion, the re-fetch, the
    polling, and the fetch of the final read of line 167. *)
Definition create_update_order : list RemoteCall :=
  [FetchCall; ProtocolCall Submit; ProtocolCall CompletionWait;
   ProtocolCall Refetch; ProtocolCall StatePoll; FetchCall].

(** Resource data that holds the identifier of [pool1] and stale values in
    every field the read stores. *)
Definition example_d_stale : ResourceData :=
  mkResourceData (example_lb_id ++ "/inboundNatPools/pool1")%string
    "stale" "" example_lb_id "Udp" 1 2 3 "other" "".

(** The fetch fails. *)
Definition script_fetch_fails : Script :=
  mkScript [FetchError (ErrNew "network")] [] [] [] [].

(** A [pool1] whose frontend reference holds an identifier the example
    parser rejects. *)
Definition example_bad_ref_pool : InboundNatPool :=
  mkInboundNatPool
    (Some (example_lb_id ++ "/inboundNatPools/pool1")%string) (Some "pool1")
    (Some (mkInboundNatPoolPropertiesFormat
             (Some (mkSubResource (Some "/frontendIPConfigurations"))) "Tcp"
             (Some 50000%Z) (Some 50100%Z) (Some 22%Z))).

Definition script_bad_ref : Script :=
  mkScript [FetchFound (example_lb [example_bad_ref_pool])] [] [] [] [].

Definition example_parse_error : error :=
  ErrNew "The number of path segments is not divisible by 2".

(** What the read has stored of [example_bad_ref_pool] into
    [example_d_stale] when it reaches the frontend reference. *)
Definition example_d_half_read : ResourceData :=
  mkResourceData (example_lb_id ++ "/inboundNatPools/pool1")%string
    "pool1" "rg1" example_lb_id "Tcp" 50000 50100 22 "other" "".

(** The resource data once the read has stored the name, the resource
    group, the protocol and the ports of the located element (lines
    194-201). *)
Definition read_stores_properties (id : ResourceID) (config : InboundNatPool)
  (props : InboundNatPoolPropertiesFormat) (d : ResourceData) : ResourceData :=
  Set_backend_port (int_of_ptr (BackendPort props))
    (Set_frontend_port_end (int_of_ptr (FrontendPortRangeEnd props))
       (Set_frontend_port_start (int_of_ptr (FrontendPortRangeStart props))
          (Set_protocol (Protocol props)
             (Set_resource_group_name (ResourceGroup id)
                (Set_name (string_of_ptr (pool_Name config)) d))))).

(** An update whose final read finds the parent without [pool1]. *)
Definition script_update_gone : Script :=
  mkScript
    [FetchFound (example_lb [example_other_pool; example_old_pool]);
     FetchFound (example_lb [example_other_pool])]
    [] []
    [inr (example_lb [example_other_pool; example_stored_pool])]
    [].

Definition example_update_gone_trace : list Entry :=
  Eval vm_compute in
    snd (run scripted (example_CreateUpdate example_d) script_update_gone).

(** * Properties *)

(** ** Executions *)

Lemma Exec_bind {A B : Type} (p : Prog A) (f : A -> Prog B) tr b :
  Exec (bind p f) tr b <->
  exists tr1 a tr2, tr = tr1 ++ tr2 /\ Exec p tr1 a /\ Exec (f a) tr2 b.
Proof.
  revert tr. induction p as [a | R e k IH]; intros tr; simpl.
  - split.
    + intros H. exists [], a, tr. auto.
    + intros (tr1 & a' & tr2 & -> & [-> ->] & H). exact H.
  - split.
    + intros (r & tr' & -> & H). apply IH in H.
      destruct H as (tr1 & a & tr2 & -> & H1 & H2).
      exists (Called e r :: tr1), a, tr2.
      split; [reflexivity|]. split; [|exact H2]. exists r, tr1. auto.
    + intros (tr1 & a & tr2 & -> & (r & tr' & -> & H1) & H2).
      exists r, (tr' ++ tr2). split; [reflexivity|].
      apply IH. exists tr', a, tr2. auto.
Qed.

Lemma Exec_defer {A : Type} (cleanup : Event unit) (body : Prog A) tr a :
  Exec (defer cleanup body) tr a <->
  exists tr1, tr = tr1 ++ [Called cleanup tt] /\ Exec body tr1 a.
Proof.
  unfold defer. rewrite Exec_bind. split.
  - intros (tr1 & x & tr2 & -> & H1 & H2). simpl in H2.
    destruct H2 as ([] & tr' & -> & -> & ->). exists tr1. auto.
  - intros (tr1 & -> & H). exists tr1, a, [Called cleanup tt].
    split; [reflexivity|]. split; [exact H|]. simpl. exists tt, []. auto.
Qed.

(** Every program runs to its end in every environment: [run] is total, and
    what it computes is an execution. *)
Lemma run_Exec {A : Type} (W : World) (p : Prog A) (w : wstate W) :
  Exec p (snd (run W p w)) (fst (run W p w)).
Proof.
  revert w. induction p as [a | R e k IH]; intros w; simpl.
  - auto.
  - destruct (answer W R e w) as [r w'] eqn:E.
    specialize (IH r w'). destruct (run W (k r) w') as [a tr]. simpl in *.
    exists r, tr. auto.
Qed.

(** ** Traces *)

Lemma fetches_app tr1 tr2 : fetches (tr1 ++ tr2) = fetches tr1 ++ fetches tr2.
Proof.
  induction tr1 as [|[R e r] tr1 IH]; simpl; [reflexivity|].
  destruct e; simpl; rewrite IH; reflexivity.
Qed.

Lemma submitted_app tr1 tr2 : submitted (tr1 ++ tr2) = submitted tr1 ++ submitted tr2.
Proof.
  induction tr1 as [|[R e r] tr1 IH]; simpl; [reflexivity|].
  destruct e; simpl; rewrite IH; reflexivity.
Qed.

Lemma refetched_app tr1 tr2 :
  refetched (tr1 ++ tr2) = refetched tr1 ++ refetched tr2.
Proof.
  induction tr1 as [|[R e r] tr1 IH]; simpl; [reflexivity|].
  destruct e; simpl; rewrite IH; reflexivity.
Qed.

Lemma protocol_steps_app tr1 tr2 :
  protocol_steps (tr1 ++ tr2) = protocol_steps tr1 ++ protocol_steps tr2.
Proof.
  induction tr1 as [|en tr1 IH]; simpl; [reflexivity|].
  destruct (step_of en); simpl; rewrite IH; reflexivity.
Qed.

Lemma quiet_trace tr :
  forallb quiet tr = true ->
  forallb (fun en => negb (is_lock_call en)) tr = true /\
  submitted tr = [] /\ refetched tr = [] /\ protocol_steps tr = [].
Proof.
  induction tr as [|[R e r] tr IH]; simpl; [auto|].
  intros H. apply andb_prop in H. destruct H as [Hq H].
  destruct (IH H) as (H1 & H2 & H3 & H4).
  destruct e; simpl in *; try discriminate; rewrite ?H1, ?H2, ?H3, ?H4; auto.
Qed.

Lemma fetches_locked id tr1 : fetches (locked id tr1) = fetches tr1.
Proof. unfold locked. simpl. rewrite fetches_app. simpl. apply app_nil_r. Qed.

Lemma submitted_locked id tr1 : submitted (locked id tr1) = submitted tr1.
Proof. unfold locked. simpl. rewrite submitted_app. simpl. apply app_nil_r. Qed.

Lemma refetched_locked id tr1 : refetched (locked id tr1) = refetched tr1.
Proof. unfold locked. simpl. rewrite refetched_app. simpl. apply app_nil_r. Qed.

(** Unfolding an execution one step: a return, a call, or a branch. *)
Ltac exec_step H :=
  match type of H with
  | Exec (match ?x with _ => _ end) _ _ =>
      let E := fresh "E" in destruct x eqn:E
  | Exec _ _ _ => progress cbn [Exec] in H
  | exists _, _ =>
      let r := fresh "r" in
      let tr := fresh "tr" in
      destruct H as (r & tr & -> & H)
  | _ = [] /\ _ =>
      let E := fresh "E" in
      destruct H as [-> E]; try discriminate E;
      try (injection E; clear E; intros); try subst
  end.

Ltac exec_all H := repeat exec_step H.

Section Properties.

Variable resourceGroupAndLBNameFromId : string -> error + (string * string).
Variable parseAzureResourceID : string -> error + ResourceID.

Local Abbreviation Read := (resourceArmLoadBalancerNatPoolRead parseAzureResourceID).
Local Abbreviation CreateUpdate :=
  (resourceArmLoadBalancerNatPoolCreateUpdate
     resourceGroupAndLBNameFromId parseAzureResourceID).
Local Abbreviation Delete :=
  (resourceArmLoadBalancerNatPoolDelete resourceGroupAndLBNameFromId).
Local Abbreviation bodyCU :=
  (bodyCreateUpdate resourceGroupAndLBNameFromId parseAzureResourceID).
Local Abbreviation confirmCU := (confirmCreateUpdate parseAzureResourceID).
Local Abbreviation bodyDel := (bodyDelete resourceGroupAndLBNameFromId).

Lemma CreateUpdate_locked d tr r :
  Exec (CreateUpdate d) tr r <->
  exists tr1, tr = locked (loadbalancer_id d) tr1 /\ Exec (bodyCU d) tr1 r.
Proof.
  unfold resourceArmLoadBalancerNatPoolCreateUpdate, locked. cbn [Exec]. split.
  - intros ([] & tr' & -> & H). apply Exec_defer in H.
    destruct H as (tr1 & -> & H). exists tr1. auto.
  - intros (tr1 & -> & H). exists tt, (tr1 ++ [Called (LocksUnlockByID (loadbalancer_id d)) tt]).
    split; [reflexivity|]. apply Exec_defer. exists tr1. auto.
Qed.

Lemma Delete_locked d tr r :
  Exec (Delete d) tr r <->
  exists tr1, tr = locked (loadbalancer_id d) tr1 /\ Exec (bodyDel d) tr1 r.
Proof.
  unfold resourceArmLoadBalancerNatPoolDelete, locked. cbn [Exec]. split.
  - intros ([] & tr' & -> & H). apply Exec_defer in H.
    destruct H as (tr1 & -> & H). exists tr1. auto.
  - intros (tr1 & -> & H). exists tt, (tr1 ++ [Called (LocksUnlockByID (loadbalancer_id d)) tt]).
    split; [reflexivity|]. apply Exec_defer. exists tr1. auto.
Qed.

(** The read makes no call but the fetch and the log. *)
Lemma Read_quiet d tr r : Exec (Read d) tr r -> forallb quiet tr = true.
Proof.
  intros H. unfold resourceArmLoadBalancerNatPoolRead in H.
  exec_all H; reflexivity.
Qed.

(** ** The locator and the slices *)

Lemma locateByName_None {A : Type} (nameOf : A -> option string) wanted l i :
  locateByName nameOf wanted l i = None <->
  forall x, In x l -> nameOf x <> Some wanted.
Proof.
  revert i. induction l as [|y l IH]; intros i; simpl.
  - split; [intros _ x []|reflexivity].
  - destruct (nameOf y) as [n|] eqn:En.
    + destruct (String.eqb n wanted) eqn:Eq.
      * apply String.eqb_eq in Eq. subst n. split; [discriminate|].
        intros H. exfalso. apply (H y); auto.
      * apply String.eqb_neq in Eq. rewrite IH. split.
        -- intros H x [<-|Hx]; [congruence|auto].
        -- intros H x Hx. apply H. auto.
    + rewrite IH. split.
      * intros H x [<-|Hx]; [congruence|auto].
      * intros H x Hx. apply H. auto.
Qed.

Lemma locateByName_Some {A : Type} (nameOf : A -> option string) wanted l i x j :
  locateByName nameOf wanted l i = Some (x, j) ->
  exists pre post,
    l = pre ++ x :: post /\ j = (i + length pre)%nat /\
    nameOf x = Some wanted /\
    forall y, In y pre -> nameOf y <> Some wanted.
Proof.
  revert i. induction l as [|y l IH]; intros i; simpl; [discriminate|].
  destruct (nameOf y) as [n|] eqn:En.
  - destruct (String.eqb n wanted) eqn:Eq.
    + intros H. injection H as <- <-. apply String.eqb_eq in Eq. subst n.
      exists [], l. simpl. repeat split; auto; try lia; intros y [].
    + intros H. apply IH in H. destruct H as (pre & post & -> & -> & Hx & Hpre).
      apply String.eqb_neq in Eq.
      exists (y :: pre), post. simpl. repeat split; auto; try lia.
      intros z [<-|Hz]; [congruence|auto].
  - intros H. apply IH in H. destruct H as (pre & post & -> & -> & Hx & Hpre).
    exists (y :: pre), post. simpl. repeat split; auto; try lia.
    intros z [<-|Hz]; [congruence|auto].
Qed.

Lemma cut_middle {A : Type} (pre : list A) x post :
  firstn (length pre) (pre ++ x :: post) ++
  skipn (S (length pre)) (pre ++ x :: post) = pre ++ post.
Proof.
  induction pre as [|y pre IH]; simpl; [reflexivity|].
  f_equal. exact IH.
Qed.

Lemma remove_at_middle {A : Type} (pre : list A) x post :
  remove_at (length pre) (pre ++ x :: post) = Some (pre ++ post).
Proof.
  unfold remove_at.
  replace (Nat.leb (S (length pre)) (length (pre ++ x :: post))) with true.
  - f_equal. apply cut_middle.
  - symmetry. apply Nat.leb_le. rewrite length_app. simpl. lia.
Qed.

Lemma carries_true n x : carries n x = true <-> pool_Name x = Some n.
Proof.
  unfold carries. destruct (pool_Name x) as [m|].
  - rewrite String.eqb_eq. split; congruence.
  - split; discriminate.
Qed.

Lemma carries_false n x : carries n x = false <-> pool_Name x <> Some n.
Proof.
  rewrite <- carries_true. destruct (carries n x); split; congruence.
Qed.

Lemma filter_none {A : Type} (f : A -> bool) l :
  (forall x, In x l -> f x = false) -> filter f l = [].
Proof.
  induction l as [|y l IH]; simpl; intros H; [reflexivity|].
  rewrite (H y) by auto. apply IH. auto.
Qed.

(** The locator over the NAT pools of an aggregate. *)
Lemma findNatPool_None lb wanted :
  findLoadBalancerNatPoolByName lb wanted = None <->
  forall x, In x (natPoolsOf lb) -> pool_Name x <> Some wanted.
Proof.
  unfold findLoadBalancerNatPoolByName, natPoolsOf, deref_InboundNatPools.
  destruct (lb_Properties lb) as [p|]; [|split; [intros _ x []|reflexivity]].
  destruct (InboundNatPools p) as [pools|]; [|split; [intros _ x []|reflexivity]].
  apply locateByName_None.
Qed.

Lemma findNatPool_Some lb wanted x i :
  findLoadBalancerNatPoolByName lb wanted = Some (x, i) ->
  exists pre post,
    deref_InboundNatPools lb = Some (pre ++ x :: post) /\ i = length pre /\
    pool_Name x = Some wanted /\
    forall y, In y pre -> pool_Name y <> Some wanted.
Proof.
  unfold findLoadBalancerNatPoolByName, deref_InboundNatPools.
  destruct (lb_Properties lb) as [p|]; [|discriminate].
  destruct (InboundNatPools p) as [pools|]; [|discriminate].
  intros H. apply locateByName_Some in H.
  destruct H as (pre & post & -> & -> & Hx & Hpre).
  exists pre, post. auto.
Qed.

Lemma natPoolsOf_set lb pools lb' :
  set_InboundNatPools lb pools = Some lb' -> natPoolsOf lb' = pools.
Proof.
  unfold set_InboundNatPools, natPoolsOf, deref_InboundNatPools.
  destruct (lb_Properties lb); [|discriminate].
  intros H. injection H as <-. reflexivity.
Qed.

(** What the local mutation of create/update leaves: the fetched collection
    with the new element at its end, less the first element that carried the
    desired name. *)
Lemma workingNatPools_inr d lb newNatPool natPools :
  workingNatPools d lb newNatPool = inr natPools ->
  (findLoadBalancerNatPoolByName lb (name d) = None /\
   natPools = natPoolsOf lb ++ [newNatPool]) \/
  (exists pre x post,
     findLoadBalancerNatPoolByName lb (name d) = Some (x, length pre) /\
     natPoolsOf lb = pre ++ x :: post /\
     pool_Name x = Some (name d) /\
     (forall y, In y pre -> pool_Name y <> Some (name d)) /\
     natPools = (pre ++ post) ++ [newNatPool]).
Proof.
  unfold workingNatPools, natPoolsOf.
  destruct (deref_InboundNatPools lb) as [pools|] eqn:Ed; [|discriminate].
  destruct (findLoadBalancerNatPoolByName lb (name d)) as [[x i]|] eqn:Ef.
  - destruct (findNatPool_Some _ _ _ _ Ef) as (pre & post & Ed' & -> & Hx & Hpre).
    rewrite Ed in Ed'. injection Ed' as ->.
    rewrite Hx, String.eqb_refl.
    rewrite <- app_assoc. simpl.
    change (x :: post ++ [newNatPool]) with (x :: (post ++ [newNatPool])).
    rewrite remove_at_middle. intros H. injection H as <-.
    right. exists pre, x, post. rewrite app_assoc. auto.
  - intros H. injection H as <-. left. auto.
Qed.

(** The builder names the element after the desired state. *)
Lemma expand_name d lb newNatPool :
  expandAzureRmLoadBalancerNatPool d lb = inr newNatPool ->
  pool_Name newNatPool = Some (name d).
Proof.
  unfold expandAzureRmLoadBalancerNatPool.
  destruct (negb _);
    [destruct (findLoadBalancerFrontEndIpConfigurationByName _ _); [|discriminate]|];
    intros H; injection H as <-; reflexivity.
Qed.

(** ** The shape of the traces *)

Ltac units := repeat match goal with u : unit |- _ => destruct u end.

(** From the re-fetch on, create/update re-fetches, and then either stops,
    or logs, polls the provisioning state and, when the polling succeeds,
    reads. *)
Lemma confirm_trace d resGroup loadBalancerName tr r :
  Exec (confirmCU d resGroup loadBalancerName) tr r ->
  exists g rest,
    tr = Called (ClientGet resGroup loadBalancerName) g :: rest /\
    (rest = [] \/
     exists fmt args e rest',
       rest = Called (LogPrintf fmt args) tt
              :: Called (WaitForState (stateConf resGroup loadBalancerName)) e
              :: rest' /\
       forallb quiet rest' = true).
Proof.
  intros H. unfold confirmCreateUpdate in H. exec_all H; units;
    do 2 eexists; (split; [reflexivity|]);
    first [ left; reflexivity
          | right; do 4 eexists; split; [reflexivity|];
            first [reflexivity | eapply Read_quiet; eassumption] ].
Qed.

(** The body of create/update fetches, and then either makes no further
    remote call but the log, or submits the fetched aggregate with the
    working collection in place of its NAT pools. *)
Lemma bodyCU_trace d tr r :
  Exec (bodyCU d) tr r ->
  exists f rest,
    tr = Called (RetrieveLoadBalancerById (loadbalancer_id d)) f :: rest /\
    (forallb quiet rest = true \/
     exists lb newNatPool natPools lbS resGroup loadBalancerName e rest1,
       f = FetchFound lb /\
       expandAzureRmLoadBalancerNatPool d lb = inr newNatPool /\
       workingNatPools d lb newNatPool = inr natPools /\
       set_InboundNatPools lb natPools = Some lbS /\
       resourceGroupAndLBNameFromId (loadbalancer_id d)
         = inr (resGroup, loadBalancerName) /\
       rest = Called (CreateOrUpdate resGroup loadBalancerName lbS) e :: rest1 /\
       after_submit resGroup loadBalancerName e rest1).
Proof.
  intros H. unfold bodyCreateUpdate in H. exec_all H; units;
    try (apply confirm_trace in H; destruct H as (g & rest & -> & H));
    do 2 eexists; (split; [reflexivity|]);
    first [ left; reflexivity
          | right; do 8 eexists; repeat (split; [first [reflexivity|eassumption]|]);
            unfold after_submit;
            first [ left; split; [discriminate|reflexivity]
                  | right; left; split; [reflexivity|];
                    eexists; split; [|reflexivity]; discriminate
                  | right; right; split; [reflexivity|];
                    do 2 eexists; split; [reflexivity|]; exact H ] ].
Qed.

(** The body of delete fetches, and then either makes no further call, or
    submits the fetched aggregate less the located element, waits and
    re-fetches. *)
Lemma bodyDel_trace d tr r :
  Exec (bodyDel d) tr r ->
  exists f rest,
    tr = Called (RetrieveLoadBalancerById (loadbalancer_id d)) f :: rest /\
    (rest = [] \/
     exists lb x index pools pools' lbS resGroup loadBalancerName e rest1,
       f = FetchFound lb /\
       findLoadBalancerNatPoolByName lb (name d) = Some (x, index) /\
       deref_InboundNatPools lb = Some pools /\
       remove_at index pools = Some pools' /\
       set_InboundNatPools lb pools' = Some lbS /\
       rest = Called (CreateOrUpdate resGroup loadBalancerName lbS) e :: rest1 /\
       (rest1 = [] \/
        (exists e', rest1 = [Called WaitForCompletionRef e']) \/
        (exists g, rest1 = [Called WaitForCompletionRef None;
                            Called (ClientGet resGroup loadBalancerName) g]))).
Proof.
  intros H. unfold bodyDelete in H. exec_all H; units;
    do 2 eexists; (split; [reflexivity|]);
    first [ left; reflexivity
          | right; do 10 eexists;
            repeat (split; [first [reflexivity|eassumption]|]);
            first [ left; reflexivity
                  | right; left; eexists; reflexivity
                  | right; right; eexists; reflexivity ] ].
Qed.

(** ** The lock *)

Lemma quiet_no_lock tr : forallb quiet tr = true -> no_lock_call tr.
Proof. intros H. apply (quiet_trace tr H). Qed.

Lemma bodyCU_no_lock d tr r : Exec (bodyCU d) tr r -> no_lock_call tr.
Proof.
  intros H. apply bodyCU_trace in H.
  destruct H as (f & rest & -> & [Hq | H]).
  - unfold no_lock_call. simpl. apply quiet_no_lock, Hq.
  - destruct H as (lb & np & l & lbS & rg & n & e & rest1 & _ & _ & _ & _ & _ & -> & H).
    unfold no_lock_call.
    destruct H as [[_ ->] | [[_ (e' & _ & ->)] | [_ (g & rest' & -> & H)]]];
      try reflexivity.
    destruct H as [-> | (fmt & args & e' & rest'' & -> & Hq)]; [reflexivity|].
    simpl. apply quiet_no_lock, Hq.
Qed.

Lemma bodyDel_no_lock d tr r : Exec (bodyDel d) tr r -> no_lock_call tr.
Proof.
  intros H. apply bodyDel_trace in H.
  destruct H as (f & rest & -> & [-> | H]); [reflexivity|].
  destruct H as (lb & x & i & pools & pools' & lbS & rg & n & e & rest1
                 & _ & _ & _ & _ & _ & -> & H).
  destruct H as [-> | [(e' & ->) | (g & ->)]]; reflexivity.
Qed.

Lemma locked_remote_inside id mid i x :
  nth_error (locked id mid) i = Some x -> is_remote_call x = true ->
  (0 < i <= length mid)%nat.
Proof.
  unfold locked. destruct i as [|i]; simpl.
  - intros H. injection H as <-. discriminate.
  - intros H Hr. destruct (Nat.lt_ge_cases i (length mid)) as [Hlt | Hge]; [lia|].
    rewrite nth_error_app2 in H by exact Hge.
    destruct (i - length mid)%nat as [|k]; simpl in H.
    + injection H as <-. discriminate.
    + destruct k; discriminate.
Qed.

(** C2.  Every execution of create/update and of delete, however it ends (an
    error return and a panic included), starts by acquiring the lock keyed by
    the identifier of the parent load balancer, ends by releasing that lock,
    and makes no lock call in between; every remote call of the trace stands
    after the first call and before the last one, that is, with the lock
    held.  No execution of the read makes a lock call. *)
Theorem lock_held_around_mutations d tr r :
  (Exec (CreateUpdate d) tr r \/ Exec (Delete d) tr r ->
   exists mid,
     tr = Called (LocksByID (loadbalancer_id d)) tt
          :: mid ++ [Called (LocksUnlockByID (loadbalancer_id d)) tt] /\
     no_lock_call mid /\
     forall i x, nth_error tr i = Some x -> is_remote_call x = true ->
                 (0 < i <= length mid)%nat) /\
  (Exec (Read d) tr r -> no_lock_call tr).
Proof.
  split.
  - intros [H | H].
    + apply CreateUpdate_locked in H. destruct H as (mid & -> & H).
      exists mid. split; [reflexivity|]. split; [eapply bodyCU_no_lock, H|].
      apply locked_remote_inside.
    + apply Delete_locked in H. destruct H as (mid & -> & H).
      exists mid. split; [reflexivity|]. split; [eapply bodyDel_no_lock, H|].
      apply locked_remote_inside.
  - intros H. apply quiet_no_lock. eapply Read_quiet, H.
Qed.

(** ** The parent is gone *)

(** C4.  Whenever the fetch reports the parent load balancer not found,
    create/update sets the identifier of the resource to the empty string and
    returns nil.  Its whole trace is the lock, the fetch, the log line and
    the unlock: nothing is submitted.  This holds for every desired state,
    also one the element builder would reject. *)
Theorem parent_gone_on_create_update d tr d' res :
  Exec (CreateUpdate d) tr (d', res) ->
  first_fetch tr = Some FetchNotFound ->
  d' = SetId "" d /\ Id d' = "" /\ res = Returned None /\
  submitted tr = [] /\
  tr = [Called (LocksByID (loadbalancer_id d)) tt;
        Called (RetrieveLoadBalancerById (loadbalancer_id d)) FetchNotFound;
        Called (LogPrintf "[INFO] LoadBalancer %q not found. Removing from state"
                  [name d]) tt;
        Called (LocksUnlockByID (loadbalancer_id d)) tt].
Proof.
  intros H Hf. apply CreateUpdate_locked in H. destruct H as (tr1 & -> & H).
  unfold first_fetch in Hf. rewrite fetches_locked in Hf.
  unfold bodyCreateUpdate in H. cbn [Exec] in H.
  destruct H as (f & rest & -> & H). simpl in Hf. injection Hf as ->.
  exec_all H. units. repeat split.
Qed.

(** ** The element builder *)

Lemma findFrontEnd_None lb wanted :
  findLoadBalancerFrontEndIpConfigurationByName lb wanted = None <->
  forall x, In x (frontendConfigsOf lb) -> feip_Name x <> Some wanted.
Proof.
  unfold findLoadBalancerFrontEndIpConfigurationByName, frontendConfigsOf.
  destruct (lb_Properties lb) as [p|]; [|split; [intros _ x []|reflexivity]].
  destruct (FrontendIPConfigurations p) as [l|];
    [|split; [intros _ x []|reflexivity]].
  rewrite <- locateByName_None with (i := 0%nat).
  destruct (locateByName feip_Name wanted l 0) as [[x i]|];
    split; congruence.
Qed.

(** C3.  When the desired state names a frontend IP configuration that no
    element of the fetched parent's collection of frontend IP configurations
    carries, create/update returns an error that mentions that name, and its
    trace holds no submit. *)
Theorem missing_frontend_configuration d tr d' res lb :
  Exec (CreateUpdate d) tr (d', res) ->
  first_fetch tr = Some (FetchFound lb) ->
  frontend_ip_configuration_name d <> "" ->
  (forall x, In x (frontendConfigsOf lb) ->
             feip_Name x <> Some (frontend_ip_configuration_name d)) ->
  exists err,
    res = Returned (Some err) /\
    err = Wrapf "Error Expanding NAT Pool {{err}}"
            (Errorf "Cannot find FrontEnd IP Configuration with the name %s"
               [frontend_ip_configuration_name d]) /\
    mentions (frontend_ip_configuration_name d) err /\
    submitted tr = [].
Proof.
  intros H Hf Hv Habsent.
  apply CreateUpdate_locked in H. destruct H as (tr1 & -> & H).
  unfold first_fetch in Hf. rewrite fetches_locked in Hf.
  rewrite submitted_locked.
  unfold bodyCreateUpdate in H. cbn [Exec] in H.
  destruct H as (f & rest & -> & H). simpl in Hf. injection Hf as ->.
  assert (E : expandAzureRmLoadBalancerNatPool d lb
              = inl (Errorf "Cannot find FrontEnd IP Configuration with the name %s"
                       [frontend_ip_configuration_name d])).
  { unfold expandAzureRmLoadBalancerNatPool.
    apply String.eqb_neq in Hv. rewrite Hv. simpl.
    apply findFrontEnd_None in Habsent. rewrite Habsent. reflexivity. }
  rewrite E in H. exec_all H.
  eexists. split; [reflexivity|]. split; [reflexivity|]. simpl. auto.
Qed.

(** C10.  With the empty string for the name of the frontend IP
    configuration, the element builder succeeds, whatever the aggregate: the
    element carries the name, the protocol and the ports of the desired
    state, and no reference to a frontend IP configuration. *)
Theorem expand_without_frontend_name d lb :
  frontend_ip_configuration_name d = "" ->
  expandAzureRmLoadBalancerNatPool d lb =
    inr (mkInboundNatPool None (Some (name d))
           (Some (mkInboundNatPoolPropertiesFormat None (protocol d)
                    (FromInt32 (frontend_port_start d))
                    (FromInt32 (frontend_port_end d))
                    (FromInt32 (backend_port d))))) /\
  (forall lb', expandAzureRmLoadBalancerNatPool d lb'
               = expandAzureRmLoadBalancerNatPool d lb).
Proof.
  intros Hv. unfold expandAzureRmLoadBalancerNatPool. rewrite Hv. simpl.
  split; reflexivity.
Qed.

(** ** The submitted collection *)

Lemma after_submit_submitted resGroup loadBalancerName e rest :
  after_submit resGroup loadBalancerName e rest -> submitted rest = [].
Proof.
  intros [[_ ->] | [[_ (e' & _ & ->)] | [_ (g & rest' & -> & H)]]];
    try reflexivity.
  destruct H as [-> | (fmt & args & e' & rest'' & -> & Hq)]; [reflexivity|].
  simpl. apply (quiet_trace rest'' Hq).
Qed.

(** Create/update submits at most once, and what it submits is the fetched
    aggregate with the working collection. *)
Lemma bodyCU_submitted d tr r lb lbS :
  Exec (bodyCU d) tr r ->
  first_fetch tr = Some (FetchFound lb) ->
  In lbS (submitted tr) ->
  exists newNatPool natPools,
    expandAzureRmLoadBalancerNatPool d lb = inr newNatPool /\
    workingNatPools d lb newNatPool = inr natPools /\
    set_InboundNatPools lb natPools = Some lbS /\
    submitted tr = [lbS].
Proof.
  intros H Hf Hin. apply bodyCU_trace in H.
  destruct H as (f & rest & -> & [Hq | H]).
  - simpl in Hin. rewrite (proj1 (proj2 (quiet_trace rest Hq))) in Hin.
    destruct Hin.
  - destruct H as (lb0 & np & l & lbS0 & rg & n & e & rest1
                   & -> & He & Hw & Hs & _ & -> & Ha).
    unfold first_fetch in Hf. simpl in Hf. injection Hf as ->.
    simpl in *. rewrite (after_submit_submitted _ _ _ _ Ha) in *.
    destruct Hin as [-> | []]. exists np, l. auto.
Qed.

(** Delete submits at most once, and what it submits is the fetched
    aggregate less the element at the located position. *)
Lemma bodyDel_submitted d tr r lb lbS :
  Exec (bodyDel d) tr r ->
  first_fetch tr = Some (FetchFound lb) ->
  In lbS (submitted tr) ->
  exists x index pools pools',
    findLoadBalancerNatPoolByName lb (name d) = Some (x, index) /\
    deref_InboundNatPools lb = Some pools /\
    remove_at index pools = Some pools' /\
    set_InboundNatPools lb pools' = Some lbS /\
    submitted tr = [lbS].
Proof.
  intros H Hf Hin. apply bodyDel_trace in H.
  destruct H as (f & rest & -> & [-> | H]).
  - simpl in Hin. destruct f; destruct Hin.
  - destruct H as (lb0 & x & i & pools & pools' & lbS0 & rg & n & e & rest1
                   & -> & Hfind & Hd & Hr & Hs & -> & Ha).
    unfold first_fetch in Hf. simpl in Hf. injection Hf as ->.
    assert (Hnil : submitted rest1 = []).
    { destruct Ha as [-> | [(e' & ->) | (g & ->)]]; reflexivity. }
    simpl in *. rewrite Hnil in *.
    destruct Hin as [-> | []]. exists x, i, pools, pools'. auto.
Qed.

(** The builder reads the aggregate through its frontend IP configurations
    only. *)
Lemma expand_reads_frontend_only d lb lb' :
  frontendConfigsOf lb' = frontendConfigsOf lb ->
  expandAzureRmLoadBalancerNatPool d lb' = expandAzureRmLoadBalancerNatPool d lb.
Proof.
  intros H.
  assert (E : forall l v,
    findLoadBalancerFrontEndIpConfigurationByName l v =
    match locateByName feip_Name v (frontendConfigsOf l) 0 with
    | Some (x, _) => Some x
    | None => None
    end).
  { intros l v.
    unfold findLoadBalancerFrontEndIpConfigurationByName, frontendConfigsOf.
    destruct (lb_Properties l) as [p|]; [|reflexivity].
    destruct (FrontendIPConfigurations p); reflexivity. }
  unfold expandAzureRmLoadBalancerNatPool. rewrite !E, H. reflexivity.
Qed.

Lemma workingNatPools_total d lb newNatPool :
  deref_InboundNatPools lb <> None ->
  exists natPools lbS,
    workingNatPools d lb newNatPool = inr natPools /\
    set_InboundNatPools lb natPools = Some lbS.
Proof.
  intros Hd.
  assert (Hset : forall l, exists lbS, set_InboundNatPools lb l = Some lbS).
  { intros l. unfold set_InboundNatPools. unfold deref_InboundNatPools in Hd.
    destruct (lb_Properties lb); [eauto|congruence]. }
  unfold workingNatPools.
  destruct (deref_InboundNatPools lb) as [pools|] eqn:Ed; [|congruence].
  destruct (findLoadBalancerNatPoolByName lb (name d)) as [[x i]|] eqn:Ef.
  - destruct (findNatPool_Some _ _ _ _ Ef) as (pre & post & Ed' & -> & Hx & Hpre).
    rewrite Ed in Ed'. injection Ed' as ->.
    rewrite Hx, String.eqb_refl, <- app_assoc. simpl.
    change (x :: post ++ [newNatPool]) with (x :: (post ++ [newNatPool])).
    rewrite remove_at_middle.
    destruct (Hset (pre ++ post ++ [newNatPool])) as (lbS & HlbS). eauto.
  - destruct (Hset (pools ++ [newNatPool])) as (lbS & HlbS). eauto.
Qed.

(** C1.  Take a fetched parent whose NAT pools have unique names (the
    invariant of the data model) and a desired state whose name one of them
    carries.  Then in every aggregate create/update submits, exactly one NAT
    pool carries that name, and it is the element the builder made, which is
    built from the desired state and the frontend IP configurations alone:
    no field of the old entry is kept.  The submit is made, once, whenever
    the builder and the parsing of the parent identifier succeed. *)
Theorem create_update_overwrites d tr d' res lb :
  Exec (CreateUpdate d) tr (d', res) ->
  first_fetch tr = Some (FetchFound lb) ->
  names_unique (natPoolsOf lb) ->
  (exists x, In x (natPoolsOf lb) /\ pool_Name x = Some (name d)) ->
  (forall lbS, In lbS (submitted tr) ->
     exists newNatPool,
       expandAzureRmLoadBalancerNatPool d lb = inr newNatPool /\
       filter (carries (name d)) (natPoolsOf lbS) = [newNatPool] /\
       (forall lb0, frontendConfigsOf lb0 = frontendConfigsOf lb ->
                    expandAzureRmLoadBalancerNatPool d lb0 = inr newNatPool)) /\
  (forall newNatPool resGroup loadBalancerName,
     expandAzureRmLoadBalancerNatPool d lb = inr newNatPool ->
     resourceGroupAndLBNameFromId (loadbalancer_id d)
       = inr (resGroup, loadBalancerName) ->
     exists lbS, submitted tr = [lbS]).
Proof.
  intros H Hf Huniq (x0 & Hx0 & Hn0).
  apply CreateUpdate_locked in H. destruct H as (tr1 & -> & H).
  unfold first_fetch in Hf. rewrite fetches_locked in Hf.
  rewrite submitted_locked. split.
  - intros lbS Hin.
    destruct (bodyCU_submitted _ _ _ _ _ H Hf Hin) as (np & l & He & Hw & Hs & _).
    exists np. split; [exact He|]. split.
    + rewrite (natPoolsOf_set _ _ _ Hs).
      pose proof (expand_name _ _ _ He) as Hnp.
      apply carries_true in Hnp.
      apply workingNatPools_inr in Hw.
      destruct Hw as [[Hnone _] | (pre & x & post & _ & Hlb & Hx & Hpre & ->)].
      * exfalso. apply (proj1 (findNatPool_None _ _) Hnone x0 Hx0 Hn0).
      * specialize (Huniq (name d)). rewrite Hlb in Huniq.
        rewrite filter_app in Huniq. simpl in Huniq.
        apply carries_true in Hx. rewrite Hx in Huniq.
        rewrite length_app in Huniq. simpl in Huniq.
        assert (Hpost : filter (carries (name d)) post = []).
        { destruct (filter (carries (name d)) post); [reflexivity|].
          simpl in Huniq. lia. }
        rewrite !filter_app, Hpost. simpl. rewrite Hnp.
        rewrite (filter_none _ pre); [reflexivity|].
        intros y Hy. apply carries_false. auto.
    + intros lb0 Hlb0. rewrite (expand_reads_frontend_only _ _ _ Hlb0). exact He.
  - intros np rg n He Hrg.
    assert (Hd : deref_InboundNatPools lb <> None).
    { unfold natPoolsOf in Hx0. destruct (deref_InboundNatPools lb);
        [discriminate|destruct Hx0]. }
    destruct (workingNatPools_total d lb np Hd) as (l & lbS & Hw & Hs).
    exists lbS.
    unfold bodyCreateUpdate in H. cbn [Exec] in H.
    destruct H as (f & rest & -> & H). simpl in Hf. injection Hf as ->.
    rewrite He, Hw, Hs, Hrg in H. cbn [Exec] in H.
    destruct H as (e & rest1 & -> & H). simpl. f_equal.
    destruct e as [err|]; [exec_all H; reflexivity|].
    cbn [Exec] in H. destruct H as (e' & rest2 & -> & H).
    destruct e' as [err|]; [exec_all H; reflexivity|].
    apply confirm_trace in H. destruct H as (g & rest & -> & H). simpl.
    destruct H as [-> | (fmt & args & e' & rest'' & -> & Hq)]; [reflexivity|].
    simpl. apply (quiet_trace rest'' Hq).
Qed.

(** C9.  The frame of the local mutation.  In the aggregate create/update
    submits, the new element is the last NAT pool, and before it stand the
    fetched NAT pools in their order, all of them, or all but one that
    carried the desired name; so the pools of any other name are the fetched
    ones, unchanged and in order.  In the aggregate delete submits, the NAT
    pools are the fetched ones less the single element at the position the
    locator answered. *)
Theorem mutation_touches_named_element_only d tr d' res lb lbS :
  first_fetch tr = Some (FetchFound lb) ->
  In lbS (submitted tr) ->
  (Exec (CreateUpdate d) tr (d', res) ->
   exists newNatPool kept,
     expandAzureRmLoadBalancerNatPool d lb = inr newNatPool /\
     natPoolsOf lbS = kept ++ [newNatPool] /\
     filter (fun x => negb (carries (name d) x)) kept
       = filter (fun x => negb (carries (name d) x)) (natPoolsOf lb) /\
     (kept = natPoolsOf lb \/
      exists pre x post,
        natPoolsOf lb = pre ++ x :: post /\
        pool_Name x = Some (name d) /\ kept = pre ++ post)) /\
  (Exec (Delete d) tr (d', res) ->
   exists pre x post,
     natPoolsOf lb = pre ++ x :: post /\
     findLoadBalancerNatPoolByName lb (name d) = Some (x, length pre) /\
     natPoolsOf lbS = pre ++ post).
Proof.
  intros Hf Hin. split; intros H.
  - apply CreateUpdate_locked in H. destruct H as (tr1 & -> & H).
    unfold first_fetch in Hf. rewrite fetches_locked in Hf.
    rewrite submitted_locked in Hin.
    destruct (bodyCU_submitted _ _ _ _ _ H Hf Hin) as (np & l & He & Hw & Hs & _).
    rewrite (natPoolsOf_set _ _ _ Hs).
    apply workingNatPools_inr in Hw.
    destruct Hw as [[_ ->] | (pre & x & post & _ & Hlb & Hx & _ & ->)].
    + exists np, (natPoolsOf lb). auto.
    + exists np, (pre ++ post). repeat split; auto.
      * rewrite Hlb, !filter_app. simpl.
        apply carries_true in Hx. rewrite Hx. reflexivity.
      * right. exists pre, x, post. auto.
  - apply Delete_locked in H. destruct H as (tr1 & -> & H).
    unfold first_fetch in Hf. rewrite fetches_locked in Hf.
    rewrite submitted_locked in Hin.
    destruct (bodyDel_submitted _ _ _ _ _ H Hf Hin)
      as (x & i & pools & pools' & Hfind & Hd & Hr & Hs & _).
    rewrite (natPoolsOf_set _ _ _ Hs).
    destruct (findNatPool_Some _ _ _ _ Hfind) as (pre & post & Hd' & -> & _ & _).
    rewrite Hd in Hd'. injection Hd' as ->.
    rewrite remove_at_middle in Hr. injection Hr as <-.
    exists pre, x, post. unfold natPoolsOf. rewrite Hd. auto.
Qed.

(** ** Delete *)

(** Delete leaves the resource data as it was, but for the identifier. *)
Lemma bodyDel_state d tr d' res :
  Exec (bodyDel d) tr (d', res) -> d' = d \/ d' = SetId "" d.
Proof.
  intros H. unfold bodyDelete in H. exec_all H; auto.
Qed.

(** The two cases in which delete has nothing to do. *)
Lemma bodyDel_nothing_to_do d tr d' res :
  Exec (bodyDel d) tr (d', res) ->
  first_fetch tr = Some FetchNotFound \/
  (exists lb, first_fetch tr = Some (FetchFound lb) /\
              forall x, In x (natPoolsOf lb) -> pool_Name x <> Some (name d)) ->
  res = Returned None /\ submitted tr = [] /\
  exists f, tr = [Called (RetrieveLoadBalancerById (loadbalancer_id d)) f].
Proof.
  intros H Hcase. unfold bodyDelete in H. cbn [Exec] in H.
  destruct H as (f & rest & -> & H). unfold first_fetch in Hcase. simpl in Hcase.
  destruct Hcase as [Hf | (lb & Hf & Habsent)]; injection Hf as ->.
  - exec_all H. eauto.
  - apply findNatPool_None in Habsent. rewrite Habsent in H. exec_all H. eauto.
Qed.

(** C5.  Delete returns nil without submitting anything, its trace being the
    lock, the fetch and the unlock, in both cases: when the fetch reports the
    parent not found, and when no NAT pool of the fetched parent carries the
    desired name.  Hence a second delete is such a success: when a first
    delete of a parent with unique names has submitted an aggregate and the
    second one fetches that aggregate, the second one has nothing to do. *)
Theorem delete_is_idempotent d tr d' res :
  Exec (Delete d) tr (d', res) ->
  (first_fetch tr = Some FetchNotFound -> nothing_done d tr res) /\
  (forall lb, first_fetch tr = Some (FetchFound lb) ->
     (forall x, In x (natPoolsOf lb) -> pool_Name x <> Some (name d)) ->
     nothing_done d tr res) /\
  (forall d0 tr0 lb0 lbS,
     Exec (Delete d0) tr0 (d, Returned None) ->
     first_fetch tr0 = Some (FetchFound lb0) ->
     names_unique (natPoolsOf lb0) ->
     In lbS (submitted tr0) ->
     first_fetch tr = Some (FetchFound lbS) ->
     nothing_done d tr res).
Proof.
  intros H.
  apply Delete_locked in H. destruct H as (tr1 & -> & H).
  assert (Hcase :
    first_fetch tr1 = Some FetchNotFound \/
    (exists lb, first_fetch tr1 = Some (FetchFound lb) /\
                forall x, In x (natPoolsOf lb) -> pool_Name x <> Some (name d)) ->
    nothing_done d (locked (loadbalancer_id d) tr1) res).
  { intros Hcase.
    destruct (bodyDel_nothing_to_do _ _ _ _ H Hcase) as (Hres & Hsub & f & ->).
    unfold nothing_done. rewrite submitted_locked. unfold locked. simpl. eauto. }
  unfold first_fetch in *. rewrite fetches_locked. split; [|split].
  - intros Hf. apply Hcase. auto.
  - intros lb Hf Habsent. apply Hcase. eauto.
  - intros d0 tr0 lb0 lbS H0 Hf0 Huniq Hin Hf. apply Hcase. right.
    exists lbS. split; [exact Hf|].
    apply Delete_locked in H0. destruct H0 as (tr2 & -> & H0).
    rewrite fetches_locked in Hf0. rewrite submitted_locked in Hin.
    assert (Hname : name d = name d0).
    { destruct (bodyDel_state _ _ _ _ H0) as [-> | ->]; reflexivity. }
    destruct (bodyDel_submitted _ _ _ _ _ H0 Hf0 Hin)
      as (x & i & pools & pools' & Hfind & Hd & Hr & Hs & _).
    rewrite (natPoolsOf_set _ _ _ Hs).
    destruct (findNatPool_Some _ _ _ _ Hfind) as (pre & post & Hd' & -> & Hx & Hpre).
    rewrite Hd in Hd'. injection Hd' as ->.
    rewrite remove_at_middle in Hr. injection Hr as <-.
    specialize (Huniq (name d0)). unfold natPoolsOf in Huniq. rewrite Hd in Huniq.
    rewrite filter_app in Huniq. simpl in Huniq.
    apply carries_true in Hx. rewrite Hx in Huniq.
    rewrite length_app in Huniq. simpl in Huniq.
    rewrite Hname. intros y Hy. apply in_app_or in Hy. destruct Hy as [Hy | Hy].
    + auto.
    + apply carries_false.
      destruct (carries (name d0) y) eqn:Ey; [|reflexivity]. exfalso.
      assert (Hin' : In y (filter (carries (name d0)) post)).
      { apply filter_In. auto. }
      destruct (filter (carries (name d0)) post); [destruct Hin'|].
      simpl in Huniq. lia.
Qed.

(** ** After the submit *)

Lemma scanNatPoolId_absent wanted pools natPoolId :
  (forall x, In x pools -> exists n, pool_Name x = Some n /\ n <> wanted) ->
  scanNatPoolId wanted pools natPoolId = inr natPoolId.
Proof.
  induction pools as [|x pools IH]; simpl; intros H; [reflexivity|].
  destruct (H x (or_introl eq_refl)) as (n & -> & Hn).
  apply String.eqb_neq in Hn. rewrite Hn. apply IH. auto.
Qed.

(** What create/update makes of the re-fetched aggregate.  Without an
    identifier: an error.  With an identifier but without the collection: a
    nil dereference, a panic.  With a collection of named elements none of
    which carries the desired name: an error. *)
Lemma refetch_outcomes d tr d' res read :
  Exec (CreateUpdate d) tr (d', res) ->
  refetched tr = [inr read] ->
  (lb_ID read = None -> exists err, res = Returned (Some err)) /\
  (lb_ID read <> None -> deref_InboundNatPools read = None ->
   res = Panicked NilDereference) /\
  (lb_ID read <> None ->
   (exists pools, deref_InboundNatPools read = Some pools /\
      forall x, In x pools -> exists n, pool_Name x = Some n /\ n <> name d) ->
   exists err, res = Returned (Some err)).
Proof.
  intros H Hre. apply CreateUpdate_locked in H. destruct H as (tr1 & -> & H).
  rewrite refetched_locked in Hre.
  unfold bodyCreateUpdate in H. exec_all H; simpl in Hre; try discriminate.
  unfold confirmCreateUpdate in H. cbn [Exec] in H.
  destruct H as (g & rest & -> & H). simpl in Hre. injection Hre as -> Hrest.
  split; [|split].
  - intros Hid. rewrite Hid in H. exec_all H. eauto.
  - intros Hid Hd. destruct (lb_ID read); [|congruence].
    rewrite Hd in H. exec_all H. reflexivity.
  - intros Hid (pools & Hd & Hnames). destruct (lb_ID read); [|congruence].
    rewrite Hd, (scanNatPoolId_absent _ _ _ Hnames) in H. simpl in H.
    exec_all H. eauto.
Qed.

(** ** The order of the submit protocol *)

Lemma precedesb_sound P Q tr : precedesb P Q tr = true -> precedes P Q tr.
Proof.
  induction tr as [|a tr IH]; intros H i j x y Hi Hj HP HQ.
  - destruct i; discriminate.
  - simpl in H. apply andb_prop in H. destruct H as [H1 H2].
    destruct j as [|j].
    + simpl in Hj. injection Hj as <-. rewrite HQ in H1. simpl in H1.
      apply andb_prop in H1. destruct H1 as [Ha Hrest].
      destruct i as [|i].
      * simpl in Hi. injection Hi as <-. rewrite HP in Ha. discriminate.
      * simpl in Hi. apply nth_error_In in Hi.
        rewrite forallb_forall in Hrest. specialize (Hrest _ Hi).
        rewrite HP in Hrest. discriminate.
    + destruct i as [|i]; [lia|]. simpl in Hi, Hj.
      specialize (IH H2 i j x y Hi Hj HP HQ). lia.
Qed.

Lemma precedesb_snoc P Q l u :
  P u = false -> Q u = false -> precedesb P Q (l ++ [u]) = precedesb P Q l.
Proof.
  intros HP HQ. induction l as [|x l IH]; simpl.
  - rewrite HP, HQ. reflexivity.
  - rewrite IH, forallb_app. simpl. rewrite HP. simpl.
    rewrite !andb_true_r. reflexivity.
Qed.

Lemma quiet_step_of en : quiet en = true -> step_of en = None.
Proof.
  unfold quiet. intros H. apply andb_prop in H. destruct H as [_ H].
  destruct (step_of en); [discriminate|reflexivity].
Qed.

Lemma quiet_not_step s l :
  forallb quiet l = true -> forallb (fun y => negb (is_step s y)) l = true.
Proof.
  induction l as [|x l IH]; simpl; [reflexivity|]. intros H.
  apply andb_prop in H. destruct H as [Hx H]. rewrite (IH H).
  unfold is_step. rewrite (quiet_step_of _ Hx). reflexivity.
Qed.

Lemma quiet_precedesb a b l :
  forallb quiet l = true -> precedesb (is_step a) (is_step b) l = true.
Proof.
  induction l as [|x l IH]; simpl; [reflexivity|]. intros H.
  apply andb_prop in H. destruct H as [Hx H]. rewrite (IH H).
  unfold is_step at 1. rewrite (quiet_step_of _ Hx). reflexivity.
Qed.

Lemma quiet_poll_ok l : forallb quiet l = true -> Forall poll_ok l.
Proof.
  induction l as [|x l IH]; simpl; intros H; constructor.
  - apply andb_prop in H. destruct H as [Hx _].
    apply quiet_step_of in Hx. intros conf E.
    destruct x as [R e r]. destruct e; simpl in *; discriminate.
  - apply IH. apply andb_prop in H. apply H.
Qed.

Lemma poll_ok_not_poll {R : Type} (e : Event R) (r : R) :
  poll_conf (Called e r) = None -> poll_ok (Called e r).
Proof. intros H conf E. congruence. Qed.

Lemma poll_ok_stateConf resGroup loadBalancerName e :
  poll_ok (Called (WaitForState (stateConf resGroup loadBalancerName)) e).
Proof. intros conf E. injection E as <-. split; reflexivity. Qed.

Ltac poll_ok_list :=
  repeat (apply Forall_cons;
          [first [apply poll_ok_stateConf | apply poll_ok_not_poll; reflexivity]|]);
  try apply Forall_nil.

Lemma bodyCU_protocol_ok d tr r : Exec (bodyCU d) tr r -> protocol_ok tr.
Proof.
  intros H. apply bodyCU_trace in H.
  destruct H as (f & rest & -> & [Hq | H]).
  - unfold protocol_ok. simpl.
    rewrite !quiet_precedesb, (proj2 (proj2 (proj2 (quiet_trace rest Hq)))) by exact Hq.
    repeat split; auto.
    + exists 0%nat. reflexivity.
    + constructor; [apply poll_ok_not_poll; reflexivity|].
      apply quiet_poll_ok, Hq.
  - destruct H as (lb & np & l & lbS & rg & n & e & rest1
                   & _ & _ & _ & _ & _ & -> & H).
    unfold protocol_ok.
    destruct H as [[_ ->] | [[_ (e' & _ & ->)] | [_ (g & rest' & -> & H)]]].
    + simpl. repeat split; auto.
      * exists 1%nat. reflexivity.
      * poll_ok_list.
    + simpl. repeat split; auto.
      * exists 2%nat. reflexivity.
      * poll_ok_list.
    + destruct H as [-> | (fmt & args & e' & rest'' & -> & Hq)].
      * simpl. repeat split; auto.
        -- exists 3%nat. reflexivity.
        -- poll_ok_list.
      * simpl.
        rewrite !quiet_precedesb, !quiet_not_step,
          (proj2 (proj2 (proj2 (quiet_trace rest'' Hq)))) by exact Hq.
        repeat split; auto.
        -- exists 4%nat. reflexivity.
        -- poll_ok_list. apply quiet_poll_ok, Hq.
Qed.

Lemma locked_protocol_ok id tr : protocol_ok tr -> protocol_ok (locked id tr).
Proof.
  unfold protocol_ok, locked. intros (H1 & H2 & H3 & H4 & H5).
  simpl. rewrite !precedesb_snoc by reflexivity.
  rewrite protocol_steps_app. simpl. rewrite app_nil_r.
  repeat split; auto.
  constructor; [apply poll_ok_not_poll; reflexivity|].
  apply Forall_app. split; [exact H5|].
  constructor; [apply poll_ok_not_poll; reflexivity|constructor].
Qed.

(** C7, as the code has it.  In every execution of create/update the calls of
    the submit protocol are made in the order: submit of the whole aggregate,
    wait for the completion of the asynchronous operation
    ([future.WaitForCompletionRef]), re-fetch, polling of the provisioning
    state; an execution makes a prefix of them.  So the polling, whose
    pending states are Accepted and Updating and whose target state is
    Succeeded, comes after the re-fetch; what stands between the submit and
    the re-fetch is the wait for completion.  With the fetches counted, the
    remote calls of an execution are a prefix of: fetch, submit, wait,
    re-fetch, polling, fetch of the final read; so the polling comes before
    the final read. *)
Theorem polling_after_refetch d tr r :
  Exec (CreateUpdate d) tr r ->
  precedes (is_step Submit) (is_step CompletionWait) tr /\
  precedes (is_step CompletionWait) (is_step Refetch) tr /\
  precedes (is_step Refetch) (is_step StatePoll) tr /\
  (exists k, protocol_steps tr = firstn k protocol_order) /\
  Forall poll_ok tr /\
  (exists k, remote_calls tr = firstn k create_update_order).
Proof.
  intros H. apply CreateUpdate_locked in H. destruct H as (tr1 & -> & H).
  pose proof H as H'.
  apply bodyCU_protocol_ok in H.
  apply (locked_protocol_ok (loadbalancer_id d)) in H.
  destruct H as (H1 & H2 & H3 & H4 & H5).
  repeat (split; [solve [auto using precedesb_sound]|]).
  repeat first
    [ exec_step H'
    | progress unfold bodyCreateUpdate in H'
    | progress unfold confirmCreateUpdate in H'
    | progress unfold resourceArmLoadBalancerNatPoolRead in H' ];
    unfold locked; simpl;
    first [ exists 1%nat; reflexivity | exists 2%nat; reflexivity
          | exists 3%nat; reflexivity | exists 4%nat; reflexivity
          | exists 5%nat; reflexivity | exists 6%nat; reflexivity ].
Qed.

(** ** Round trip *)

Lemma wrap_int32_port p : valid_port p -> wrap_int32 p = p.
Proof.
  unfold valid_port, wrap_int32. intros H.
  change (2 ^ 31)%Z with 2147483648%Z. change (2 ^ 32)%Z with 4294967296%Z.
  rewrite Z.mod_small; lia.
Qed.

(** Under unique names, the working collection holds the new element and no
    other element of its name. *)
Lemma workingNatPools_unique d lb newNatPool natPools :
  names_unique (natPoolsOf lb) ->
  pool_Name newNatPool = Some (name d) ->
  workingNatPools d lb newNatPool = inr natPools ->
  filter (carries (name d)) natPools = [newNatPool].
Proof.
  intros Huniq Hnp Hw. apply carries_true in Hnp.
  apply workingNatPools_inr in Hw.
  destruct Hw as [[Hnone ->] | (pre & x & post & _ & Hlb & Hx & Hpre & ->)].
  - rewrite filter_app. simpl. rewrite Hnp.
    rewrite filter_none; [reflexivity|].
    intros y Hy. apply carries_false.
    apply (proj1 (findNatPool_None _ _) Hnone y Hy).
  - specialize (Huniq (name d)). rewrite Hlb in Huniq.
    rewrite filter_app in Huniq. simpl in Huniq.
    apply carries_true in Hx. rewrite Hx in Huniq.
    rewrite length_app in Huniq. simpl in Huniq.
    assert (Hpost : filter (carries (name d)) post = []).
    { destruct (filter (carries (name d)) post); [reflexivity|].
      simpl in Huniq. lia. }
    rewrite !filter_app, Hpost. simpl. rewrite Hnp.
    rewrite (filter_none _ pre); [reflexivity|].
    intros y Hy. apply carries_false. auto.
Qed.

Lemma findFrontEnd_Some lb wanted rule :
  findLoadBalancerFrontEndIpConfigurationByName lb wanted = Some rule ->
  In rule (frontendConfigsOf lb) /\ feip_Name rule = Some wanted.
Proof.
  unfold findLoadBalancerFrontEndIpConfigurationByName, frontendConfigsOf.
  destruct (lb_Properties lb) as [p|]; [|discriminate].
  destruct (FrontendIPConfigurations p) as [l|]; [|discriminate].
  destruct (locateByName feip_Name wanted l 0) as [[x i]|] eqn:E; [|discriminate].
  intros H. injection H as ->.
  apply locateByName_Some in E. destruct E as (pre & post & -> & _ & Hx & _).
  split; [apply in_or_app; right; left; reflexivity|exact Hx].
Qed.

(** The element the builder makes when a frontend IP configuration is
    named. *)
Lemma expand_with_frontend_name d lb newNatPool :
  frontend_ip_configuration_name d <> "" ->
  expandAzureRmLoadBalancerNatPool d lb = inr newNatPool ->
  exists rule,
    findLoadBalancerFrontEndIpConfigurationByName lb
      (frontend_ip_configuration_name d) = Some rule /\
    newNatPool =
      mkInboundNatPool None (Some (name d))
        (Some (mkInboundNatPoolPropertiesFormat
                 (Some (mkSubResource (feip_ID rule))) (protocol d)
                 (FromInt32 (frontend_port_start d))
                 (FromInt32 (frontend_port_end d))
                 (FromInt32 (backend_port d)))).
Proof.
  intros Hv. unfold expandAzureRmLoadBalancerNatPool.
  apply String.eqb_neq in Hv. rewrite Hv. simpl.
  destruct (findLoadBalancerFrontEndIpConfigurationByName lb _) as [rule|];
    [|discriminate].
  intros H. injection H as <-. exists rule. auto.
Qed.

(** The locator finds, in a collection that agrees with another one up to
    the identifiers, an element that agrees with an element of the other. *)
Lemma locate_up_to_ID wanted l2 lS :
  map without_ID l2 = map without_ID lS ->
  (exists y, In y lS /\ pool_Name y = Some wanted) ->
  exists x i y,
    locateByName pool_Name wanted l2 0 = Some (x, i) /\
    In y lS /\ pool_Name y = Some wanted /\
    pool_Name x = Some wanted /\ pool_Properties x = pool_Properties y.
Proof.
  intros Hmap (y0 & Hy0 & Hn0).
  destruct (locateByName pool_Name wanted l2 0) as [[x i]|] eqn:E.
  - apply locateByName_Some in E. destruct E as (pre & post & -> & _ & Hx & _).
    assert (Hin : In (without_ID x) (map without_ID lS)).
    { rewrite <- Hmap. apply in_map. apply in_or_app. right. left. reflexivity. }
    apply in_map_iff in Hin. destruct Hin as (y & Hy & HinS).
    exists x, i, y.
    assert (Hny : pool_Name y = pool_Name x) by (injection Hy; auto).
    assert (Hpy : pool_Properties y = pool_Properties x) by (injection Hy; auto).
    repeat split; congruence.
  - exfalso.
    assert (Hin : In (without_ID y0) (map without_ID l2)).
    { rewrite Hmap. apply in_map, Hy0. }
    apply in_map_iff in Hin. destruct Hin as (x & Hx & Hin2).
    assert (Hnx : pool_Name x = pool_Name y0) by (injection Hx; auto).
    apply (proj1 (locateByName_None _ _ _ _) E x Hin2). congruence.
Qed.

Lemma findNatPool_natPoolsOf lb wanted :
  findLoadBalancerNatPoolByName lb wanted
  = locateByName pool_Name wanted (natPoolsOf lb) 0.
Proof.
  unfold findLoadBalancerNatPoolByName, natPoolsOf, deref_InboundNatPools.
  destruct (lb_Properties lb) as [p|]; [|reflexivity].
  destruct (InboundNatPools p); reflexivity.
Qed.

(** C8.  Round trip.  Take a desired state with valid port numbers that
    names a frontend IP configuration, and a successful create/update of it
    against a parent whose NAT pools have unique names.  Then take a
    successful read that starts from any resource data holding the
    identifier create/update left, whatever its other fields hold (the data
    create/update left is one such).  Let the remote system answer the read
    with the NAT pools that were submitted, identifiers apart, and let the
    identifiers have the format the parser reads names from: the identifier
    of the resource parses to the desired name, that of each frontend IP
    configuration to its name.  Then the fields the read leaves are the
    desired fields: the read has fetched and stored each of them. *)
Theorem create_then_read_round_trip d tr1 d1 lb lbS d0 tr2 d2 lb2 :
  valid_port (frontend_port_start d) ->
  valid_port (frontend_port_end d) ->
  valid_port (backend_port d) ->
  frontend_ip_configuration_name d <> "" ->
  Exec (CreateUpdate d) tr1 (d1, Returned None) ->
  first_fetch tr1 = Some (FetchFound lb) ->
  names_unique (natPoolsOf lb) ->
  In lbS (submitted tr1) ->
  Id d0 = Id d1 ->
  Exec (Read d0) tr2 (d2, Returned None) ->
  first_fetch tr2 = Some (FetchFound lb2) ->
  map without_ID (natPoolsOf lb2) = map without_ID (natPoolsOf lbS) ->
  (forall id, parseAzureResourceID (Id d1) = inr id ->
              Path_get (Path id) "inboundNatPools" = name d) ->
  (forall x i id, In x (frontendConfigsOf lb) -> feip_ID x = Some i ->
                  parseAzureResourceID i = inr id ->
                  feip_Name x = Some (Path_get (Path id) "frontendIPConfigurations")) ->
  fields_of d2 = fields_of d /\
  Id d2 = Id d1 /\
  exists feipID, frontend_ip_configuration_id d2 = feipID /\
    exists rule, In rule (frontendConfigsOf lb) /\
      feip_Name rule = Some (frontend_ip_configuration_name d) /\
      feip_ID rule = Some feipID.
Proof.
  intros Hp1 Hp2 Hp3 Hv H1 Hf1 Huniq Hin Hd0 H2 Hf2 Hremote Hid Hfeip.
  apply CreateUpdate_locked in H1. destruct H1 as (t1 & -> & H1).
  unfold first_fetch in Hf1. rewrite fetches_locked in Hf1.
  rewrite submitted_locked in Hin.
  destruct (bodyCU_submitted _ _ _ _ _ H1 Hf1 Hin) as (np & l & He & Hw & Hs & _).
  pose proof (expand_name _ _ _ He) as Hnp.
  pose proof (workingNatPools_unique _ _ _ _ Huniq Hnp Hw) as Hone.
  rewrite (natPoolsOf_set _ _ _ Hs) in Hremote.
  destruct (expand_with_frontend_name _ _ _ Hv He) as (rule & Hrule & Enp).
  destruct (findFrontEnd_Some _ _ _ Hrule) as (Hrin & Hrname).
  assert (Hnpl : In np l).
  { assert (Hi : In np (filter (carries (name d)) l)) by (rewrite Hone; left; auto).
    apply filter_In in Hi. apply Hi. }
  destruct (locate_up_to_ID (name d) _ _ Hremote (ex_intro _ np (conj Hnpl Hnp)))
    as (x & i & y & Hloc & Hy & Hny & Hnx & Hpx).
  assert (Hynp : y = np).
  { assert (Hi : In y (filter (carries (name d)) l)).
    { apply filter_In. split; [exact Hy|]. apply carries_true, Hny. }
    rewrite Hone in Hi. destruct Hi as [<- | []]. reflexivity. }
  subst y.
  unfold resourceArmLoadBalancerNatPoolRead in H2. rewrite Hd0 in H2.
  destruct (parseAzureResourceID (Id d1)) as [err|id] eqn:Eid; [exec_all H2|].
  cbv zeta in H2. cbn [Exec] in H2. destruct H2 as (f & rest & -> & H2).
  unfold first_fetch in Hf2. simpl in Hf2. injection Hf2 as ->.
  rewrite (Hid id eq_refl), findNatPool_natPoolsOf, Hloc, Hpx, Enp in H2.
  simpl in H2.
  destruct (feip_ID rule) as [feipID|] eqn:Efeip; [|exec_all H2].
  destruct (parseAzureResourceID feipID) as [err|fipID] eqn:Efip; [exec_all H2|].
  exec_all H2.
  pose proof (Hfeip rule feipID fipID Hrin Efeip Efip) as Hname.
  rewrite Hrname in Hname. injection Hname as Hname.
  split; [|split].
  - unfold fields_of. simpl. rewrite Hnx. simpl.
    unfold wrap_int32 in *. fold (wrap_int32 (frontend_port_start d)).
    fold (wrap_int32 (frontend_port_end d)). fold (wrap_int32 (backend_port d)).
    rewrite !wrap_int32_port by assumption.
    rewrite <- Hname. reflexivity.
  - simpl. exact Hd0.
  - exists feipID. split; [reflexivity|]. exists rule. auto.
Qed.

End Properties.

(** * The operations on the example data *)

Lemma example_names_unique :
  names_unique (natPoolsOf (example_lb [example_other_pool; example_old_pool])).
Proof.
  intros n.
  cbv beta iota delta
    [natPoolsOf deref_InboundNatPools example_lb lb_Properties InboundNatPools
     filter carries example_other_pool example_old_pool pool_Name].
  destruct (String.eqb_spec "pool0" n) as [E0|], (String.eqb_spec "pool1" n) as [E1|];
    cbn [length]; try lia.
  rewrite <- E0 in E1. discriminate E1.
Qed.

Lemma example_identifier_format :
  (forall id, example_parseAzureResourceID (Id example_d1) = inr id ->
              Path_get (Path id) "inboundNatPools" = name example_d) /\
  (forall x i id,
     In x (frontendConfigsOf (example_lb [example_other_pool; example_old_pool])) ->
     feip_ID x = Some i ->
     example_parseAzureResourceID i = inr id ->
     feip_Name x = Some (Path_get (Path id) "frontendIPConfigurations")).
Proof.
  split.
  - intros id E. vm_compute in E. injection E as <-. reflexivity.
  - intros x i id [<- | []] Hi E. simpl in Hi. injection Hi as <-.
    vm_compute in E. injection E as <-. reflexivity.
Qed.

(** C1 on the example: the update of [pool1] submits [pool0] and the new
    [pool1], and nothing of the old one. *)
Lemma create_update_overwrites_witness :
  Exec (example_CreateUpdate example_d) example_update_trace
    (example_d1, Returned None) /\
  first_fetch example_update_trace
    = Some (FetchFound (example_lb [example_other_pool; example_old_pool])) /\
  submitted example_update_trace
    = [example_lb [example_other_pool; example_new_pool]] /\
  expandAzureRmLoadBalancerNatPool example_d
    (example_lb [example_other_pool; example_old_pool]) = inr example_new_pool /\
  filter (carries "pool1") [example_other_pool; example_new_pool]
    = [example_new_pool].
Proof.
  assert (H : Exec (example_CreateUpdate example_d) example_update_trace
                (example_d1, Returned None))
    by exact (run_Exec scripted (example_CreateUpdate example_d) script_update).
  assert (Hf : first_fetch example_update_trace
               = Some (FetchFound (example_lb [example_other_pool; example_old_pool])))
    by reflexivity.
  assert (Hex : exists x,
             In x (natPoolsOf (example_lb [example_other_pool; example_old_pool])) /\
             pool_Name x = Some (name example_d)).
  { exists example_old_pool. split; [right; left; reflexivity|reflexivity]. }
  destruct (create_update_overwrites
              example_resourceGroupAndLBNameFromId example_parseAzureResourceID
              _ _ _ _ _ H Hf example_names_unique Hex) as [A _].
  destruct (A (example_lb [example_other_pool; example_new_pool])
              (or_introl eq_refl)) as (np & He & Hone & _).
  assert (Enp : np = example_new_pool).
  { vm_compute in He. injection He as <-. reflexivity. }
  rewrite Enp in He, Hone.
  split; [exact H|]. split; [exact Hf|]. split; [reflexivity|].
  split; [exact He | exact Hone].
Defined.

(** C2 on the example: the update is made between the lock and the unlock,
    and the read after it makes no lock call. *)
Lemma lock_held_around_mutations_witness :
  Exec (example_CreateUpdate example_d) example_update_trace
    (example_d1, Returned None) /\
  (exists mid,
     example_update_trace
     = Called (LocksByID example_lb_id) tt
       :: mid ++ [Called (LocksUnlockByID example_lb_id) tt] /\
     no_lock_call mid /\
     forall i x, nth_error example_update_trace i = Some x ->
                 is_remote_call x = true -> (0 < i <= length mid)%nat) /\
  Exec (example_Read example_d1) example_read_trace (example_d2, Returned None) /\
  no_lock_call example_read_trace.
Proof.
  assert (H : Exec (example_CreateUpdate example_d) example_update_trace
                (example_d1, Returned None))
    by exact (run_Exec scripted (example_CreateUpdate example_d) script_update).
  assert (H' : Exec (example_Read example_d1) example_read_trace
                 (example_d2, Returned None))
    by exact (run_Exec scripted (example_Read example_d1) script_read).
  split; [exact H|]. split.
  - exact (proj1 (lock_held_around_mutations
                    example_resourceGroupAndLBNameFromId
                    example_parseAzureResourceID
                    example_d example_update_trace (example_d1, Returned None))
                 (or_introl H)).
  - split; [exact H'|].
    exact (proj2 (lock_held_around_mutations
                    example_resourceGroupAndLBNameFromId
                    example_parseAzureResourceID
                    example_d1 example_read_trace (example_d2, Returned None))
                 H').
Defined.

(** C3 on the example: the parent has [feip1], the desired state names
    [missing]. *)
Lemma missing_frontend_configuration_witness :
  Exec (example_CreateUpdate example_d_missing) example_missing_trace
    (example_d_missing, Returned (Some example_missing_error)) /\
  first_fetch example_missing_trace = Some (FetchFound (example_lb [])) /\
  frontend_ip_configuration_name example_d_missing <> "" /\
  (forall x, In x (frontendConfigsOf (example_lb [])) ->
             feip_Name x <> Some (frontend_ip_configuration_name example_d_missing)) /\
  mentions "missing" example_missing_error /\
  submitted example_missing_trace = [].
Proof.
  assert (H : Exec (example_CreateUpdate example_d_missing) example_missing_trace
                (example_d_missing, Returned (Some example_missing_error)))
    by exact (run_Exec scripted (example_CreateUpdate example_d_missing)
                script_empty_parent).
  assert (Hf : first_fetch example_missing_trace = Some (FetchFound (example_lb [])))
    by reflexivity.
  assert (Hv : frontend_ip_configuration_name example_d_missing <> "")
    by discriminate.
  assert (Habsent : forall x, In x (frontendConfigsOf (example_lb [])) ->
             feip_Name x <> Some (frontend_ip_configuration_name example_d_missing)).
  { intros x [<- | []]. discriminate. }
  destruct (missing_frontend_configuration
              example_resourceGroupAndLBNameFromId example_parseAzureResourceID
              _ _ _ _ _ H Hf Hv Habsent) as (err & Hres & Herr & Hm & Hs).
  injection Hres as <-.
  split; [exact H|]. split; [exact Hf|]. split; [exact Hv|].
  split; [exact Habsent|]. split; [exact Hm | exact Hs].
Defined.

(** C4 on the example: the fetch reports the parent gone. *)
Lemma parent_gone_on_create_update_witness :
  Exec (example_CreateUpdate example_d) example_gone_trace
    (SetId "" example_d, Returned None) /\
  first_fetch example_gone_trace = Some FetchNotFound /\
  submitted example_gone_trace = [] /\
  length example_gone_trace = 4%nat.
Proof.
  assert (H : Exec (example_CreateUpdate example_d) example_gone_trace
                (SetId "" example_d, Returned None))
    by exact (run_Exec scripted (example_CreateUpdate example_d) script_gone).
  assert (Hf : first_fetch example_gone_trace = Some FetchNotFound)
    by reflexivity.
  destruct (parent_gone_on_create_update
              example_resourceGroupAndLBNameFromId example_parseAzureResourceID
              _ _ _ _ H Hf) as (_ & _ & _ & Hs & Htr).
  split; [exact H|]. split; [exact Hf|]. split; [exact Hs|].
  rewrite Htr. reflexivity.
Defined.

(** C10 on the example: no frontend IP configuration is named. *)
Lemma expand_without_frontend_name_witness :
  frontend_ip_configuration_name example_d_unnamed = "" /\
  expandAzureRmLoadBalancerNatPool example_d_unnamed (example_lb [])
  = inr (mkInboundNatPool None (Some "pool1")
           (Some (mkInboundNatPoolPropertiesFormat None "Tcp"
                    (Some 50000%Z) (Some 50100%Z) (Some 22%Z)))).
Proof.
  split; [reflexivity|].
  exact (proj1 (expand_without_frontend_name example_d_unnamed (example_lb [])
                  eq_refl)).
Defined.

(** C9 on the example: the update keeps [pool0] in its place before the new
    [pool1]; the delete of [pool1] leaves [pool0]. *)
Lemma mutation_touches_named_element_only_witness :
  (first_fetch example_update_trace
     = Some (FetchFound (example_lb [example_other_pool; example_old_pool])) /\
   In (example_lb [example_other_pool; example_new_pool])
      (submitted example_update_trace) /\
   Exec (example_CreateUpdate example_d) example_update_trace
     (example_d1, Returned None) /\
   exists newNatPool kept,
     [example_other_pool; example_new_pool] = kept ++ [newNatPool] /\
     filter (fun x => negb (carries "pool1" x)) kept = [example_other_pool]) /\
  (first_fetch example_delete_first_trace
     = Some (FetchFound (example_lb [example_other_pool; example_old_pool])) /\
   In (example_lb [example_other_pool]) (submitted example_delete_first_trace) /\
   Exec (example_Delete example_d) example_delete_first_trace
     (example_d, Returned None) /\
   exists pre x post,
     [example_other_pool; example_old_pool] = pre ++ x :: post /\
     findLoadBalancerNatPoolByName
       (example_lb [example_other_pool; example_old_pool]) "pool1"
     = Some (x, length pre) /\
     [example_other_pool] = pre ++ post).
Proof.
  assert (H : Exec (example_CreateUpdate example_d) example_update_trace
                (example_d1, Returned None))
    by exact (run_Exec scripted (example_CreateUpdate example_d) script_update).
  assert (H' : Exec (example_Delete example_d) example_delete_first_trace
                 (example_d, Returned None))
    by exact (run_Exec scripted (example_Delete example_d) script_delete_first).
  split.
  - split; [reflexivity|]. split; [left; reflexivity|]. split; [exact H|].
    destruct (proj1 (mutation_touches_named_element_only
                       example_resourceGroupAndLBNameFromId
                       example_parseAzureResourceID
                       example_d example_update_trace example_d1 (Returned None)
                       (example_lb [example_other_pool; example_old_pool])
                       (example_lb [example_other_pool; example_new_pool])
                       eq_refl (or_introl eq_refl)) H)
      as (np & kept & _ & Hl & Hkeep & _).
    exists np, kept. split; [exact Hl | exact Hkeep].
  - split; [reflexivity|]. split; [left; reflexivity|]. split; [exact H'|].
    exact (proj2 (mutation_touches_named_element_only
                    example_resourceGroupAndLBNameFromId
                    example_parseAzureResourceID
                    example_d example_delete_first_trace example_d (Returned None)
                    (example_lb [example_other_pool; example_old_pool])
                    (example_lb [example_other_pool])
                    eq_refl (or_introl eq_refl)) H').
Defined.

(** C5 on the example: a second delete of [pool1] fetches the aggregate the
    first one submitted, and has nothing to do; so has a delete whose fetch
    reports the parent gone. *)
Lemma delete_is_idempotent_witness :
  (Exec (example_Delete example_d) example_delete_first_trace
     (example_d, Returned None) /\
   first_fetch example_delete_first_trace
     = Some (FetchFound (example_lb [example_other_pool; example_old_pool])) /\
   In (example_lb [example_other_pool]) (submitted example_delete_first_trace) /\
   Exec (example_Delete example_d) example_delete_second_trace
     (example_d, Returned None) /\
   first_fetch example_delete_second_trace
     = Some (FetchFound (example_lb [example_other_pool])) /\
   nothing_done example_d example_delete_second_trace (Returned None)) /\
  (Exec (example_Delete example_d)
     (snd (run scripted (example_Delete example_d) script_gone))
     (SetId "" example_d, Returned None) /\
   nothing_done example_d
     (snd (run scripted (example_Delete example_d) script_gone)) (Returned None)).
Proof.
  assert (H1 : Exec (example_Delete example_d) example_delete_first_trace
                 (example_d, Returned None))
    by exact (run_Exec scripted (example_Delete example_d) script_delete_first).
  assert (H2 : Exec (example_Delete example_d) example_delete_second_trace
                 (example_d, Returned None))
    by exact (run_Exec scripted (example_Delete example_d) script_delete_second).
  assert (H3 : Exec (example_Delete example_d)
                 (snd (run scripted (example_Delete example_d) script_gone))
                 (SetId "" example_d, Returned None))
    by exact (run_Exec scripted (example_Delete example_d) script_gone).
  split.
  - split; [exact H1|]. split; [reflexivity|]. split; [left; reflexivity|].
    split; [exact H2|]. split; [reflexivity|].
    exact (proj2 (proj2 (delete_is_idempotent
                           example_resourceGroupAndLBNameFromId
                           example_d example_delete_second_trace example_d
                           (Returned None) H2))
             example_d example_delete_first_trace
             (example_lb [example_other_pool; example_old_pool])
             (example_lb [example_other_pool])
             H1 eq_refl example_names_unique (or_introl eq_refl) eq_refl).
  - split; [exact H3|].
    exact (proj1 (delete_is_idempotent
                    example_resourceGroupAndLBNameFromId
                    example_d _ _ (Returned None) H3) eq_refl).
Defined.

(** C6 on the example.  The submit and the wait succeed; the re-fetch
    answers the aggregate with its identifier and without its properties.
    Create/update then dereferences the absent properties: it panics, and
    returns no error. *)
Theorem refetch_without_properties_panics :
  fst (run scripted (example_CreateUpdate example_d)
         script_refetch_without_properties)
  = (example_d, Panicked NilDereference) /\
  protocol_steps
    (snd (run scripted (example_CreateUpdate example_d)
            script_refetch_without_properties))
  = [Submit; CompletionWait; Refetch] /\
  refetched
    (snd (run scripted (example_CreateUpdate example_d)
            script_refetch_without_properties))
  = [inr example_lb_without_properties] /\
  lb_ID example_lb_without_properties <> None /\
  lb_Properties example_lb_without_properties = None.
Proof.
  split; [vm_compute; reflexivity|].
  split; [vm_compute; reflexivity|].
  split; [vm_compute; reflexivity|].
  split; [discriminate|reflexivity].
Qed.

(** C7 as the spec states it fails on the example: the update polls the
    provisioning state (call 6 of the trace) after it has re-fetched the
    parent (call 4). *)
Lemma polling_is_not_before_refetch :
  ~ (forall tr r,
       Exec (example_CreateUpdate example_d) tr r ->
       polling_between_submit_and_refetch tr).
Proof.
  intros C.
  destruct (C example_update_trace (example_d1, Returned None)
              (run_Exec scripted (example_CreateUpdate example_d) script_update))
    as [_ C'].
  assert (Hpoll : exists y, nth_error example_update_trace 6 = Some y /\
                            is_step StatePoll y = true)
    by (eexists; split; reflexivity).
  assert (Hget : exists y, nth_error example_update_trace 4 = Some y /\
                           is_step Refetch y = true)
    by (eexists; split; reflexivity).
  destruct Hpoll as (x & Hx & Px). destruct Hget as (y & Hy & Qy).
  specialize (C' 6%nat 4%nat x y Hx Hy Px Qy). lia.
Qed.

(** C7 on the example: fetch, submit, wait, re-fetch, polling, and the fetch
    of the final read, in this order. *)
Lemma polling_after_refetch_witness :
  Exec (example_CreateUpdate example_d) example_update_trace
    (example_d1, Returned None) /\
  protocol_steps example_update_trace
    = [Submit; CompletionWait; Refetch; StatePoll] /\
  remote_calls example_update_trace = create_update_order /\
  precedes (is_step Refetch) (is_step StatePoll) example_update_trace /\
  Forall poll_ok example_update_trace /\
  exists k, remote_calls example_update_trace = firstn k create_update_order.
Proof.
  assert (H : Exec (example_CreateUpdate example_d) example_update_trace
                (example_d1, Returned None))
    by exact (run_Exec scripted (example_CreateUpdate example_d) script_update).
  destruct (polling_after_refetch
              example_resourceGroupAndLBNameFromId example_parseAzureResourceID
              _ _ _ H) as (_ & _ & H3 & _ & H5 & H6).
  split; [exact H|]. split; [reflexivity|]. split; [reflexivity|].
  split; [exact H3|]. split; [exact H5 | exact H6].
Defined.

(** C8 on the example: the update of [pool1], then a read that starts from
    stale resource data holding the identifier of [pool1] and is answered
    with the stored NAT pools, leaves the desired fields. *)
Lemma create_then_read_round_trip_witness :
  valid_port (frontend_port_start example_d) /\
  valid_port (frontend_port_end example_d) /\
  valid_port (backend_port example_d) /\
  frontend_ip_configuration_name example_d <> "" /\
  Exec (example_CreateUpdate example_d) example_update_trace
    (example_d1, Returned None) /\
  first_fetch example_update_trace
    = Some (FetchFound (example_lb [example_other_pool; example_old_pool])) /\
  In (example_lb [example_other_pool; example_new_pool])
     (submitted example_update_trace) /\
  Id example_d_stale = Id example_d1 /\
  fields_of example_d_stale <> fields_of example_d /\
  Exec (example_Read example_d_stale) example_read_trace
    (example_d2, Returned None) /\
  first_fetch example_read_trace
    = Some (FetchFound (example_lb [example_other_pool; example_stored_pool])) /\
  map without_ID [example_other_pool; example_stored_pool]
    = map without_ID [example_other_pool; example_new_pool] /\
  fields_of example_d2 = fields_of example_d.
Proof.
  assert (Hp1 : valid_port (frontend_port_start example_d))
    by (unfold valid_port; simpl; lia).
  assert (Hp2 : valid_port (frontend_port_end example_d))
    by (unfold valid_port; simpl; lia).
  assert (Hp3 : valid_port (backend_port example_d))
    by (unfold valid_port; simpl; lia).
  assert (Hv : frontend_ip_configuration_name example_d <> "") by discriminate.
  assert (H1 : Exec (example_CreateUpdate example_d) example_update_trace
                 (example_d1, Returned None))
    by exact (run_Exec scripted (example_CreateUpdate example_d) script_update).
  assert (H2 : Exec (example_Read example_d_stale) example_read_trace
                 (example_d2, Returned None))
    by exact (run_Exec scripted (example_Read example_d_stale) script_read).
  split; [exact Hp1|]. split; [exact Hp2|]. split; [exact Hp3|].
  split; [exact Hv|]. split; [exact H1|]. split; [reflexivity|].
  split; [left; reflexivity|]. split; [reflexivity|]. split; [discriminate|].
  split; [exact H2|]. split; [reflexivity|]. split; [reflexivity|].
  exact (proj1 (create_then_read_round_trip
           example_resourceGroupAndLBNameFromId example_parseAzureResourceID
           example_d example_update_trace example_d1
           (example_lb [example_other_pool; example_old_pool])
           (example_lb [example_other_pool; example_new_pool])
           example_d_stale example_read_trace example_d2
           (example_lb [example_other_pool; example_stored_pool])
           Hp1 Hp2 Hp3 Hv H1 eq_refl example_names_unique (or_introl eq_refl)
           eq_refl H2 eq_refl eq_refl
           (proj1 example_identifier_format) (proj2 example_identifier_format))).
Defined.

(** * Further properties of the operations *)

Lemma wraps_refl e : wraps e e.
Proof. destruct e; simpl; auto. Qed.

Lemma nothing_after_failureb_sound tr :
  nothing_after_failureb tr = true -> nothing_after_failure tr.
Proof.
  induction tr as [|a tr IH]; intros H i j x y Hi Hj Hx Hy.
  - destruct i; discriminate.
  - simpl in H. apply andb_prop in H. destruct H as [H1 H2].
    destruct i as [|i]; destruct j as [|j]; try lia.
    + simpl in Hi, Hj. injection Hi as <-.
      destruct (failure_of a); [|congruence].
      apply nth_error_In in Hj. rewrite forallb_forall in H1.
      specialize (H1 _ Hj). rewrite Hy in H1. discriminate.
    + simpl in Hi, Hj. specialize (IH H2 i j x y Hi Hj Hx Hy). lia.
Qed.

Section Operations.

Variable resourceGroupAndLBNameFromId : string -> error + (string * string).
Variable parseAzureResourceID : string -> error + ResourceID.

Local Abbreviation Read := (resourceArmLoadBalancerNatPoolRead parseAzureResourceID).
Local Abbreviation CreateUpdate :=
  (resourceArmLoadBalancerNatPoolCreateUpdate
     resourceGroupAndLBNameFromId parseAzureResourceID).
Local Abbreviation Delete :=
  (resourceArmLoadBalancerNatPoolDelete resourceGroupAndLBNameFromId).

(** Unfolding an execution to its end, through the parts of create/update
    and the read it ends with. *)
Ltac exec_deep H :=
  repeat first
    [ exec_step H
    | progress unfold bodyCreateUpdate in H
    | progress unfold confirmCreateUpdate in H
    | progress unfold bodyDelete in H
    | progress unfold resourceArmLoadBalancerNatPoolRead in H ];
  repeat match goal with u : unit |- _ => destruct u end.

(** ** The read *)

(** X1.  The read reports the resource gone in two cases: the fetch does not
    find the parent, or no NAT pool of the fetched parent carries the name
    that the resource identifier holds under [inboundNatPools] (the [name]
    field of the resource data is not consulted).  It then clears the
    identifier, leaves every other field as it was, and returns nil after
    the one fetch and a log line. *)
Theorem read_reports_gone d tr d' res id :
  Exec (Read d) tr (d', res) ->
  parseAzureResourceID (Id d) = inr id ->
  first_fetch tr = Some FetchNotFound \/
  (exists lb, first_fetch tr = Some (FetchFound lb) /\
     forall x, In x (natPoolsOf lb) ->
               pool_Name x <> Some (Path_get (Path id) "inboundNatPools")) ->
  d' = SetId "" d /\ res = Returned None /\
  exists f fmt,
    tr = [Called (RetrieveLoadBalancerById (loadbalancer_id d)) f;
          Called (LogPrintf fmt [Path_get (Path id) "inboundNatPools"]) tt].
Proof.
  intros H Hid Hcase. unfold resourceArmLoadBalancerNatPoolRead in H.
  rewrite Hid in H. cbv zeta in H. cbn [Exec] in H.
  destruct H as (f & rest & -> & H). unfold first_fetch in Hcase. simpl in Hcase.
  destruct Hcase as [Hf | (lb & Hf & Habsent)]; injection Hf as ->.
  - exec_deep H. eauto.
  - apply findNatPool_None in Habsent. rewrite Habsent in H. exec_deep H. eauto.
Qed.

(** X2.  The read returns an error in three cases only.  The resource
    identifier does not parse: that error is returned as it is, no call is
    made and the resource data is untouched.  The fetch fails: its error is
    returned wrapped, after that one call, the data untouched.  The element
    located under the name of the resource identifier has properties with a
    frontend reference whose identifier does not parse: that error is
    returned as it is, after the name, resource group, protocol and ports of
    the element have been stored; the resource identifier and the two
    frontend fields are untouched. *)
Theorem read_fails_in_three_cases d tr d' e :
  Exec (Read d) tr (d', Returned (Some e)) ->
  (parseAzureResourceID (Id d) = inl e /\ tr = [] /\ d' = d) \/
  (exists id err,
     parseAzureResourceID (Id d) = inr id /\
     tr = [Called (RetrieveLoadBalancerById (loadbalancer_id d)) (FetchError err)] /\
     e = ErrorfV "retrieving Load Balancer by ID: %+v" [] err /\ d' = d) \/
  (exists id lb config index props feipConfig feipID,
     parseAzureResourceID (Id d) = inr id /\
     tr = [Called (RetrieveLoadBalancerById (loadbalancer_id d)) (FetchFound lb)] /\
     findLoadBalancerNatPoolByName lb (Path_get (Path id) "inboundNatPools")
       = Some (config, index) /\
     pool_Properties config = Some props /\
     FrontendIPConfiguration_ref props = Some feipConfig /\
     sub_ID feipConfig = Some feipID /\
     parseAzureResourceID feipID = inl e /\
     d' = read_stores_properties id config props d /\
     Id d' = Id d /\
     frontend_ip_configuration_name d' = frontend_ip_configuration_name d /\
     frontend_ip_configuration_id d' = frontend_ip_configuration_id d).
Proof.
  intros H. unfold resourceArmLoadBalancerNatPoolRead in H.
  exec_deep H.
  - left. auto.
  - right. right. do 7 eexists.
    repeat (split; [first [reflexivity | eassumption]|]). reflexivity.
  - right. left. do 2 eexists.
    repeat (split; [first [reflexivity | eassumption]|]). reflexivity.
Qed.

(** X3.  The read is idempotent.  After a read that returned nil and left a
    non-empty identifier, a second read that gets the same answer from the
    fetch returns nil and leaves the resource data as the first one did. *)
Theorem read_is_idempotent d tr1 d1 f tr2 d2 res2 :
  Exec (Read d) tr1 (d1, Returned None) ->
  first_fetch tr1 = Some f ->
  Id d1 <> "" ->
  Exec (Read d1) tr2 (d2, res2) ->
  first_fetch tr2 = Some f ->
  d2 = d1 /\ res2 = Returned None.
Proof.
  intros H1 Hf1 Hid H2 Hf2.
  unfold resourceArmLoadBalancerNatPoolRead in H1.
  destruct (parseAzureResourceID (Id d)) as [err|id] eqn:Eid; [exec_all H1|].
  cbv zeta in H1. cbn [Exec] in H1. destruct H1 as (f1 & rest & -> & H1).
  unfold first_fetch in Hf1. simpl in Hf1. injection Hf1 as ->.
  destruct f as [lb| |err]; [|exec_all H1; simpl in Hid; congruence|exec_all H1].
  destruct (findLoadBalancerNatPoolByName lb (Path_get (Path id) "inboundNatPools"))
    as [[config i]|] eqn:Efind; [|exec_all H1; simpl in Hid; congruence].
  unfold resourceArmLoadBalancerNatPoolRead in H2.
  destruct (pool_Properties config) as [props|] eqn:Eprops.
  - destruct (FrontendIPConfiguration_ref props) as [feipConfig|] eqn:Eref.
    + destruct (sub_ID feipConfig) as [feipID|] eqn:Esub; [|exec_all H1].
      destruct (parseAzureResourceID feipID) as [err|fipID] eqn:Efip;
        [exec_all H1|].
      exec_all H1. simpl in H2. rewrite Eid in H2. cbv zeta in H2.
      cbn [Exec] in H2. destruct H2 as (f2 & rest2 & -> & H2).
      unfold first_fetch in Hf2. simpl in Hf2. injection Hf2 as ->.
      rewrite Efind, Eprops, Eref, Esub, Efip in H2. exec_all H2.
      split; reflexivity.
    + exec_all H1. simpl in H2. rewrite Eid in H2. cbv zeta in H2.
      cbn [Exec] in H2. destruct H2 as (f2 & rest2 & -> & H2).
      unfold first_fetch in Hf2. simpl in Hf2. injection Hf2 as ->.
      rewrite Efind, Eprops, Eref in H2. exec_all H2. split; reflexivity.
  - exec_all H1. simpl in H2. rewrite Eid in H2. cbv zeta in H2.
    cbn [Exec] in H2. destruct H2 as (f2 & rest2 & -> & H2).
    unfold first_fetch in Hf2. simpl in Hf2. injection Hf2 as ->.
    rewrite Efind, Eprops in H2. exec_all H2. split; reflexivity.
Qed.

(** ** Remote failures *)

(** X4.  No remote failure is swallowed, and none is retried.  In every
    execution of create/update, of delete and of the read, no remote call is
    made after a remote call has failed, and the operation returns an error
    built around the error that call answered. *)
Theorem remote_failure_is_returned d tr d' res :
  Exec (CreateUpdate d) tr (d', res) \/ Exec (Delete d) tr (d', res) \/
  Exec (Read d) tr (d', res) ->
  nothing_after_failure tr /\
  forall err, In err (remote_failures tr) ->
              exists e, res = Returned (Some e) /\ wraps err e.
Proof.
  intros [H | [H | H]].
  - apply CreateUpdate_locked in H. destruct H as (tr1 & -> & H).
    exec_deep H; unfold locked;
      (split; [apply nothing_after_failureb_sound; reflexivity|]);
      simpl; intros err0 Hin;
      repeat (destruct Hin as [<- | Hin]); try contradiction;
      eexists; (split; [reflexivity|]); simpl; auto using wraps_refl.
  - apply Delete_locked in H. destruct H as (tr1 & -> & H).
    exec_deep H; unfold locked;
      (split; [apply nothing_after_failureb_sound; reflexivity|]);
      simpl; intros err0 Hin;
      repeat (destruct Hin as [<- | Hin]); try contradiction;
      eexists; (split; [reflexivity|]); simpl; auto using wraps_refl.
  - exec_deep H;
      (split; [apply nothing_after_failureb_sound; reflexivity|]);
      simpl; intros err0 Hin;
      repeat (destruct Hin as [<- | Hin]); try contradiction;
      eexists; (split; [reflexivity|]); simpl; auto using wraps_refl.
Qed.

(** ** The calls of an execution *)

(** X5.  Delete fetches once and then makes a prefix of submit, wait for
    completion, re-fetch: it never polls the provisioning state.  The read
    makes no call to the remote system but one fetch at most.  Create/update
    fetches once or twice, and twice only when submit, wait, re-fetch and
    polling have all been made. *)
Theorem calls_of_the_operations d tr r :
  (Exec (Delete d) tr r ->
   length (fetches tr) = 1%nat /\
   exists k, protocol_steps tr = firstn k [Submit; CompletionWait; Refetch]) /\
  (Exec (Read d) tr r ->
   (length (fetches tr) <= 1)%nat /\ protocol_steps tr = []) /\
  (Exec (CreateUpdate d) tr r ->
   (1 <= length (fetches tr) <= 2)%nat /\
   (length (fetches tr) = 2%nat -> protocol_steps tr = protocol_order)).
Proof.
  split; [|split]; intros H.
  - apply Delete_locked in H. destruct H as (tr1 & -> & H).
    exec_deep H; unfold locked; simpl; (split; [reflexivity|]);
      first [ exists 0%nat; reflexivity | exists 1%nat; reflexivity
            | exists 2%nat; reflexivity | exists 3%nat; reflexivity ].
  - exec_deep H; simpl; split; auto.
  - apply CreateUpdate_locked in H. destruct H as (tr1 & -> & H).
    exec_deep H; unfold locked; simpl; (split; [lia|]);
      intros E; first [discriminate E | reflexivity].
Qed.

(** X6.  A create/update that finds the parent and returns nil has made the
    whole protocol, each step once and with success: one submit, the wait,
    the re-fetch, the polling, and the final read's fetch; no remote call
    failed. *)
Theorem success_means_whole_protocol d tr d' lb :
  Exec (CreateUpdate d) tr (d', Returned None) ->
  first_fetch tr = Some (FetchFound lb) ->
  protocol_steps tr = protocol_order /\
  remote_failures tr = [] /\
  length (fetches tr) = 2%nat /\
  exists lbS, submitted tr = [lbS].
Proof.
  intros H Hf. apply CreateUpdate_locked in H. destruct H as (tr1 & -> & H).
  unfold first_fetch in Hf. rewrite fetches_locked in Hf.
  exec_deep H; simpl in Hf; try discriminate Hf;
    unfold locked; simpl; repeat (split; [reflexivity|]); eauto.
Qed.

(** ** Panics *)

(** The local mutation of create/update fails in one way only: the
    collection of the fetched parent is absent.  Its slice expression is
    always in range. *)
Lemma workingNatPools_inl d lb newNatPool p :
  workingNatPools d lb newNatPool = inl p ->
  p = NilDereference /\ deref_InboundNatPools lb = None.
Proof.
  destruct (deref_InboundNatPools lb) as [pools|] eqn:Ed.
  - assert (Hd : deref_InboundNatPools lb <> None) by congruence.
    destruct (workingNatPools_total d lb newNatPool Hd) as (l & lbS & Hw & _).
    congruence.
  - unfold workingNatPools. rewrite Ed. intros H. injection H as <-. auto.
Qed.

Lemma scanNatPoolId_inl wanted pools natPoolId p :
  scanNatPoolId wanted pools natPoolId = inl p -> p = NilDereference.
Proof.
  revert natPoolId. induction pools as [|x pools IH]; simpl; intros acc H.
  - discriminate.
  - destruct (pool_Name x) as [n|]; [|congruence].
    destruct (String.eqb n wanted); [|eauto].
    destruct (pool_ID x); [eauto|congruence].
Qed.

(** What delete does to the collection never fails once the locator has
    found the element. *)
Lemma delete_mutation_in_range lb wanted x index :
  findLoadBalancerNatPoolByName lb wanted = Some (x, index) ->
  exists pools pools' lbS,
    deref_InboundNatPools lb = Some pools /\
    remove_at index pools = Some pools' /\
    set_InboundNatPools lb pools' = Some lbS.
Proof.
  intros H. destruct (findNatPool_Some _ _ _ _ H) as (pre & post & Hd & -> & _ & _).
  exists (pre ++ x :: post), (pre ++ post).
  unfold set_InboundNatPools, deref_InboundNatPools in *.
  destruct (lb_Properties lb); [|discriminate].
  eexists. split; [exact Hd|]. split; [apply remove_at_middle|reflexivity].
Qed.

(** X7.  Create/update on a parent whose NAT-pool collection is absent.
    When the element builder succeeds and the fetched parent has no NAT-pool
    collection (a nil pointer), create/update panics on a nil dereference:
    it submits nothing, leaves the resource data untouched, and its trace is
    the lock, the fetch and the deferred unlock.  Conversely a panic of
    create/update before any submit has this cause, and no panic of
    create/update is a slice out of range. *)
Theorem create_update_on_absent_collection d tr d' res lb :
  Exec (CreateUpdate d) tr (d', res) ->
  first_fetch tr = Some (FetchFound lb) ->
  (forall newNatPool,
     expandAzureRmLoadBalancerNatPool d lb = inr newNatPool ->
     deref_InboundNatPools lb = None ->
     res = Panicked NilDereference /\ d' = d /\
     tr = [Called (LocksByID (loadbalancer_id d)) tt;
           Called (RetrieveLoadBalancerById (loadbalancer_id d)) (FetchFound lb);
           Called (LocksUnlockByID (loadbalancer_id d)) tt]) /\
  (forall p, res = Panicked p ->
     p = NilDereference /\
     (submitted tr = [] ->
      deref_InboundNatPools lb = None /\
      exists newNatPool, expandAzureRmLoadBalancerNatPool d lb = inr newNatPool)).
Proof.
  intros H Hf. apply CreateUpdate_locked in H. destruct H as (tr1 & -> & H).
  unfold first_fetch in Hf. rewrite fetches_locked in Hf.
  unfold bodyCreateUpdate in H. cbn [Exec] in H.
  destruct H as (f & rest & -> & H). simpl in Hf. injection Hf as ->.
  split.
  - intros np He Hd. rewrite He in H.
    assert (Hw : workingNatPools d lb np = inl NilDereference).
    { unfold workingNatPools. rewrite Hd. reflexivity. }
    rewrite Hw in H. exec_all H. repeat split.
  - intros p ->.
    destruct (expandAzureRmLoadBalancerNatPool d lb) as [err|np] eqn:He;
      [exec_all H|].
    destruct (workingNatPools d lb np) as [q|l] eqn:Hw.
    + exec_all H. destruct (workingNatPools_inl _ _ _ _ Hw) as [-> Hd].
      split; [reflexivity|]. intros _. eauto.
    + exec_deep H;
        try match goal with
            | E : scanNatPoolId _ _ _ = inl _ |- _ =>
                apply scanNatPoolId_inl in E; subst
            end;
        (split; [reflexivity|]); unfold locked; simpl; try discriminate.
      intros _. exfalso. unfold workingNatPools in Hw.
      unfold set_InboundNatPools, deref_InboundNatPools in *.
      destruct (lb_Properties lb); congruence.
Qed.

(** X8.  Delete never panics: given the element the locator found, its
    dereferences and its slice expressions are always defined.  It changes
    nothing of the resource data but the identifier, which it clears only
    when the fetch does not find the parent; after a delete that submitted,
    the identifier is as it was. *)
Theorem delete_never_panics d tr d' res :
  Exec (Delete d) tr (d', res) ->
  (exists e, res = Returned e) /\
  (d' = d \/ (d' = SetId "" d /\ first_fetch tr = Some FetchNotFound)) /\
  (submitted tr <> [] -> d' = d).
Proof.
  clear parseAzureResourceID.
  intros H. apply Delete_locked in H. destruct H as (tr1 & -> & H).
  unfold first_fetch. rewrite fetches_locked, submitted_locked.
  unfold bodyDelete in H. cbn [Exec] in H.
  destruct H as (f & rest & -> & H).
  destruct f as [lb| |err]; [|exec_all H; simpl; intuition eauto
                              |exec_all H; simpl; intuition eauto].
  destruct (findLoadBalancerNatPoolByName lb (name d)) as [[x i]|] eqn:Ef;
    [|exec_all H; simpl; intuition eauto].
  destruct (delete_mutation_in_range _ _ _ _ Ef) as (pools & pools' & lbS & Hd & Hr & Hs).
  rewrite Hd, Hr, Hs in H.
  exec_all H; simpl; intuition eauto.
Qed.

(** ** The recorded identifier *)

Lemma scanNatPoolId_last wanted pools natPoolId id :
  scanNatPoolId wanted pools natPoolId = inr id ->
  (id = natPoolId /\ forall y, In y pools -> pool_Name y <> Some wanted) \/
  (exists pre x post,
     pools = pre ++ x :: post /\ pool_Name x = Some wanted /\
     pool_ID x = Some id /\
     forall y, In y post -> pool_Name y <> Some wanted).
Proof.
  revert natPoolId. induction pools as [|x pools IH]; simpl; intros acc H.
  - injection H as <-. left. split; [reflexivity|]. intros y [].
  - destruct (pool_Name x) as [n|] eqn:En; [|discriminate].
    destruct (String.eqb n wanted) eqn:Eq.
    + apply String.eqb_eq in Eq. subst n.
      destruct (pool_ID x) as [i|] eqn:Ei; [|discriminate].
      destruct (IH _ H) as [[-> Hnone] | (pre & z & post & -> & Hz & Hi & Hpost)].
      * right. exists [], x, pools. auto.
      * right. exists (x :: pre), z, post. auto.
    + apply String.eqb_neq in Eq.
      destruct (IH _ H) as [[-> Hnone] | (pre & z & post & -> & Hz & Hi & Hpost)].
      * left. split; [reflexivity|]. intros y [<- | Hy]; [congruence|auto].
      * right. exists (x :: pre), z, post. auto.
Qed.

(** X9.  The identifier create/update records.  Whenever create/update
    reaches the polling of the provisioning state, the re-fetched parent
    holds a last NAT pool carrying the desired name, whose identifier is not
    empty, and create/update has recorded that identifier.  The identifier
    it leaves is that one, except when the final read reported the resource
    gone: then it is empty, create/update returns nil, and the trace holds
    the second fetch, which did not find the parent or found a parent with
    no NAT pool of the name the recorded identifier parses to.  The
    identifier is recorded before the polling: when a remote call fails from
    there on, the error is returned with the resource data changed in the
    identifier only, which is set. *)
Theorem recorded_identifier d tr d' res :
  Exec (CreateUpdate d) tr (d', res) ->
  In StatePoll (protocol_steps tr) ->
  exists read pre x post natPoolId,
    refetched tr = [inr read] /\
    natPoolsOf read = pre ++ x :: post /\
    pool_Name x = Some (name d) /\
    pool_ID x = Some natPoolId /\
    natPoolId <> "" /\
    (forall y, In y post -> pool_Name y <> Some (name d)) /\
    (Id d' = natPoolId \/
     (Id d' = "" /\ res = Returned None /\
      exists f1 f2 id,
        fetches tr = [f1; f2] /\
        parseAzureResourceID natPoolId = inr id /\
        (f2 = FetchNotFound \/
         exists lb2,
           f2 = FetchFound lb2 /\
           findLoadBalancerNatPoolByName lb2
             (Path_get (Path id) "inboundNatPools") = None))) /\
    (remote_failures tr <> [] -> d' = SetId natPoolId d).
Proof.
  intros H Hin. apply CreateUpdate_locked in H. destruct H as (tr1 & -> & H).
  exec_deep H; unfold locked in *; simpl in Hin;
    try solve [intuition discriminate]; clear Hin;
    match goal with
    | Hs : scanNatPoolId _ ?pools "" = inr ?s,
      Hn : String.eqb ?s "" = false,
      Hd : deref_InboundNatPools ?read = Some ?pools |- _ =>
        apply String.eqb_neq in Hn;
        destruct (scanNatPoolId_last _ _ _ _ Hs)
          as [[Hc _] | (pre & x & post & Hp & Hx & Hi & Hpost)];
        [congruence|];
        exists read, pre, x, post, s;
        split; [reflexivity|];
        split; [unfold natPoolsOf; rewrite Hd; exact Hp|];
        split; [exact Hx|]; split; [exact Hi|]; split; [exact Hn|];
        split; [exact Hpost|];
        split;
        [ first
            [ left; reflexivity
            | right; split; [reflexivity|]; split; [reflexivity|];
              do 3 eexists; split; [reflexivity|]; split; [eassumption|];
              first [ left; reflexivity
                    | right; eexists; split; [reflexivity | eassumption] ] ]
        | simpl; first [ intros C; exfalso; apply C; reflexivity
                       | intros _; reflexivity ] ]
    end.
Qed.

(** ** What the operations leave alone *)

Lemma set_InboundNatPools_rest lb pools lbS :
  set_InboundNatPools lb pools = Some lbS ->
  rest_of_aggregate lbS = rest_of_aggregate lb.
Proof.
  unfold set_InboundNatPools, rest_of_aggregate.
  destruct (lb_Properties lb); [|discriminate].
  intros H. injection H as <-. reflexivity.
Qed.

(** X10.  The aggregate that create/update or delete submits is the fetched
    one in everything but its NAT pools: the identifier, the name, the
    frontend IP configurations and the provisioning state are those that
    were fetched. *)
Theorem submit_keeps_rest_of_aggregate d tr d' res lb lbS :
  Exec (CreateUpdate d) tr (d', res) \/ Exec (Delete d) tr (d', res) ->
  first_fetch tr = Some (FetchFound lb) ->
  In lbS (submitted tr) ->
  rest_of_aggregate lbS = rest_of_aggregate lb.
Proof.
  intros [H | H] Hf Hin.
  - apply CreateUpdate_locked in H. destruct H as (tr1 & -> & H).
    unfold first_fetch in Hf. rewrite fetches_locked in Hf.
    rewrite submitted_locked in Hin.
    destruct (bodyCU_submitted _ _ _ _ _ _ _ H Hf Hin) as (np & l & _ & _ & Hs & _).
    exact (set_InboundNatPools_rest _ _ _ Hs).
  - apply Delete_locked in H. destruct H as (tr1 & -> & H).
    unfold first_fetch in Hf. rewrite fetches_locked in Hf.
    rewrite submitted_locked in Hin.
    destruct (bodyDel_submitted _ _ _ _ _ _ H Hf Hin)
      as (x & i & pools & pools' & _ & _ & _ & Hs & _).
    exact (set_InboundNatPools_rest _ _ _ Hs).
Qed.

(** X11.  Every operation stays with one parent.  In every execution of
    create/update, of delete and of the read, each lock, unlock and fetch
    is keyed by the [loadbalancer_id] of the resource data, and each submit,
    re-fetch and polling is addressed to the resource group and the name
    that [resourceGroupAndLBNameFromId] reads off that identifier. *)
Theorem one_parent_per_operation d tr r :
  Exec (CreateUpdate d) tr r \/ Exec (Delete d) tr r \/ Exec (Read d) tr r ->
  (forall k, In k (keys tr) -> k = loadbalancer_id d) /\
  (forall t, In t (targets tr) ->
             resourceGroupAndLBNameFromId (loadbalancer_id d) = inr t).
Proof.
  intros [H | [H | H]].
  - apply CreateUpdate_locked in H. destruct H as (tr1 & -> & H).
    exec_deep H; unfold locked; simpl; split;
      intros k Hin; repeat (destruct Hin as [<- | Hin]);
      try contradiction; first [reflexivity | assumption].
  - apply Delete_locked in H. destruct H as (tr1 & -> & H).
    exec_deep H; unfold locked; simpl; split;
      intros k Hin; repeat (destruct Hin as [<- | Hin]);
      try contradiction; first [reflexivity | assumption].
  - exec_deep H; simpl; split;
      intros k Hin; repeat (destruct Hin as [<- | Hin]);
      try contradiction; first [reflexivity | assumption].
Qed.

(** ** The element builder *)

Lemma locateByName_first {A : Type} (nameOf : A -> option string) wanted
  pre x post i :
  nameOf x = Some wanted ->
  (forall y, In y pre -> nameOf y <> Some wanted) ->
  locateByName nameOf wanted (pre ++ x :: post) i = Some (x, (i + length pre)%nat).
Proof.
  intros Hx. revert i. induction pre as [|y pre IH]; intros i Hpre; simpl.
  - rewrite Hx, String.eqb_refl. do 2 f_equal. lia.
  - assert (Hy : nameOf y <> Some wanted) by (apply Hpre; left; reflexivity).
    assert (IH' := IH (S i) (fun z Hz => Hpre z (or_intror Hz))).
    replace (i + S (length pre))%nat with (S i + length pre)%nat by lia.
    destruct (nameOf y) as [n|]; [|exact IH'].
    destruct (String.eqb_spec n wanted) as [->|]; [congruence|exact IH'].
Qed.

(** X12.  The element the builder makes.  When the frontend IP configuration
    name is not empty, the builder resolves it to the first frontend IP
    configuration of the parent that carries it, and the element refers to
    the identifier of that one (nil when that one has no identifier); the
    element has the desired name and never an identifier of its own. *)
Theorem expand_resolves_first_match d lb pre x post :
  frontend_ip_configuration_name d <> "" ->
  frontendConfigsOf lb = pre ++ x :: post ->
  feip_Name x = Some (frontend_ip_configuration_name d) ->
  (forall y, In y pre -> feip_Name y <> Some (frontend_ip_configuration_name d)) ->
  exists props,
    expandAzureRmLoadBalancerNatPool d lb
    = inr (mkInboundNatPool None (Some (name d)) (Some props)) /\
    FrontendIPConfiguration_ref props = Some (mkSubResource (feip_ID x)) /\
    Protocol props = protocol d.
Proof.
  intros Hv Hlb Hx Hpre.
  assert (E : findLoadBalancerFrontEndIpConfigurationByName lb
                (frontend_ip_configuration_name d) = Some x).
  { unfold findLoadBalancerFrontEndIpConfigurationByName.
    unfold frontendConfigsOf in Hlb.
    destruct (lb_Properties lb) as [p|]; [|destruct pre; discriminate].
    destruct (FrontendIPConfigurations p) as [l|]; [|destruct pre; discriminate].
    subst l. rewrite (locateByName_first feip_Name _ pre x post 0 Hx Hpre).
    reflexivity. }
  unfold expandAzureRmLoadBalancerNatPool.
  apply String.eqb_neq in Hv. rewrite Hv, E. simpl.
  eexists. split; [reflexivity|]. split; reflexivity.
Qed.

(** ** Create/update, then delete *)

Lemma first_named_unique {A : Type} (P : A -> Prop) l1 a r1 l2 b r2 :
  l1 ++ a :: r1 = l2 ++ b :: r2 ->
  P a -> P b ->
  (forall y, In y l1 -> ~ P y) -> (forall y, In y l2 -> ~ P y) ->
  l1 = l2 /\ a = b /\ r1 = r2.
Proof.
  revert l2. induction l1 as [|y l1 IH]; intros [|z l2]; simpl; intros E Pa Pb H1 H2.
  - injection E as <- <-. auto.
  - injection E as <- _. exfalso. apply (H2 a); auto.
  - injection E as -> _. exfalso. apply (H1 b); auto.
  - injection E as <- E.
    destruct (IH l2 E Pa Pb (fun u Hu => H1 u (or_intror Hu))
                (fun u Hu => H2 u (or_intror Hu))) as (-> & -> & ->).
    auto.
Qed.

Lemma filter_keeps_all {A : Type} (f : A -> bool) l :
  (forall x, In x l -> f x = true) -> filter f l = l.
Proof.
  induction l as [|y l IH]; simpl; intros H; [reflexivity|].
  rewrite (H y) by auto. f_equal. apply IH. auto.
Qed.

(** X13.  Delete undoes create/update.  Let create/update submit an
    aggregate for a parent whose NAT pools have unique names, and let a
    delete of the same name fetch that aggregate.  Then delete submits the
    NAT pools that the parent had before the create/update, less the one of
    that name: the other pools, unchanged and in their order. *)
Theorem delete_undoes_create_update d tr1 d1 res1 lb lbS1 d2 tr2 d3 res2 lbS2 :
  Exec (CreateUpdate d) tr1 (d1, res1) ->
  first_fetch tr1 = Some (FetchFound lb) ->
  names_unique (natPoolsOf lb) ->
  In lbS1 (submitted tr1) ->
  name d2 = name d ->
  Exec (Delete d2) tr2 (d3, res2) ->
  first_fetch tr2 = Some (FetchFound lbS1) ->
  In lbS2 (submitted tr2) ->
  natPoolsOf lbS2
  = filter (fun x => negb (carries (name d) x)) (natPoolsOf lb).
Proof.
  intros H1 Hf1 Huniq Hin1 Hname H2 Hf2 Hin2.
  apply CreateUpdate_locked in H1. destruct H1 as (t1 & -> & H1).
  unfold first_fetch in Hf1. rewrite fetches_locked in Hf1.
  rewrite submitted_locked in Hin1.
  destruct (bodyCU_submitted _ _ _ _ _ _ _ H1 Hf1 Hin1) as (np & l & He & Hw & Hs & _).
  pose proof (expand_name _ _ _ He) as Hnp.
  apply Delete_locked in H2. destruct H2 as (t2 & -> & H2).
  unfold first_fetch in Hf2. rewrite fetches_locked in Hf2.
  rewrite submitted_locked in Hin2.
  destruct (bodyDel_submitted _ _ _ _ _ _ H2 Hf2 Hin2)
    as (x & i & pools & pools' & Hfind & Hd & Hr & Hs2 & _).
  rewrite (natPoolsOf_set _ _ _ Hs2).
  destruct (findNatPool_Some _ _ _ _ Hfind) as (pre & post & Hd' & -> & Hx & Hpre).
  rewrite Hd in Hd'. injection Hd' as ->.
  rewrite remove_at_middle in Hr. injection Hr as <-.
  pose proof (natPoolsOf_set _ _ _ Hs) as Hl1.
  unfold natPoolsOf in Hl1. rewrite Hd in Hl1. rewrite Hname in Hx, Hpre.
  assert (Hkept : forall kept,
            l = kept ++ [np] ->
            (forall y, In y kept -> pool_Name y <> Some (name d)) ->
            pre ++ post = kept).
  { intros kept Hk Hnone. rewrite Hk in Hl1.
    destruct (first_named_unique (fun y => pool_Name y = Some (name d))
                pre x post kept np [] Hl1 Hx Hnp) as (-> & _ & ->).
    - intros y Hy. apply Hpre, Hy.
    - intros y Hy. apply Hnone, Hy.
    - apply app_nil_r. }
  apply workingNatPools_inr in Hw.
  destruct Hw as [[Hnone Hl] | (pre0 & x0 & post0 & _ & Hlb & Hx0 & Hpre0 & Hl)].
  - pose proof (proj1 (findNatPool_None _ _) Hnone) as Hn.
    rewrite (Hkept _ Hl Hn). symmetry. apply filter_keeps_all.
    intros y Hy. apply negb_true_iff, carries_false. auto.
  - specialize (Huniq (name d)). rewrite Hlb in Huniq.
    rewrite filter_app in Huniq. simpl in Huniq.
    pose proof Hx0 as Hc0. apply carries_true in Hc0. rewrite Hc0 in Huniq.
    rewrite length_app in Huniq. simpl in Huniq.
    assert (Hpost0 : forall y, In y post0 -> pool_Name y <> Some (name d)).
    { intros y Hy. apply carries_false.
      destruct (carries (name d) y) eqn:Ey; [|reflexivity]. exfalso.
      assert (Hin' : In y (filter (carries (name d)) post0))
        by (apply filter_In; auto).
      destruct (filter (carries (name d)) post0); [destruct Hin'|].
      simpl in Huniq. lia. }
    assert (Hn : forall y, In y (pre0 ++ post0) -> pool_Name y <> Some (name d)).
    { intros y Hy. apply in_app_or in Hy. destruct Hy; auto. }
    rewrite (Hkept _ Hl Hn), Hlb, filter_app. simpl. rewrite Hc0. simpl.
    rewrite <- filter_app. symmetry. apply filter_keeps_all.
    intros y Hy. apply negb_true_iff, carries_false. auto.
Qed.

End Operations.

(** * The further properties on the example data *)

(** X1 on the example: the parent holds [pool0] only, the identifier names
    [pool1]. *)
Lemma read_reports_gone_witness :
  Exec (example_Read example_d1) example_read_gone_trace
    (SetId "" example_d1, Returned None) /\
  first_fetch example_read_gone_trace
    = Some (FetchFound (example_lb [example_other_pool])) /\
  exists f fmt,
    example_read_gone_trace
    = [Called (RetrieveLoadBalancerById example_lb_id) f;
       Called (LogPrintf fmt ["pool1"]) tt].
Proof.
  assert (H : Exec (example_Read example_d1) example_read_gone_trace
                (SetId "" example_d1, Returned None))
    by exact (run_Exec scripted (example_Read example_d1) script_read_gone).
  destruct (example_parseAzureResourceID (Id example_d1)) as [e|id] eqn:Eid;
    [vm_compute in Eid; discriminate Eid|].
  assert (Hname : Path_get (Path id) "inboundNatPools" = "pool1").
  { vm_compute in Eid. injection Eid as <-. reflexivity. }
  assert (Hcase :
    first_fetch example_read_gone_trace = Some FetchNotFound \/
    (exists lb, first_fetch example_read_gone_trace = Some (FetchFound lb) /\
       forall x, In x (natPoolsOf lb) ->
                 pool_Name x <> Some (Path_get (Path id) "inboundNatPools"))).
  { right. exists (example_lb [example_other_pool]). split; [reflexivity|].
    rewrite Hname. intros x [<- | []]. discriminate. }
  destruct (read_reports_gone example_parseAzureResourceID
              _ _ _ _ id H Eid Hcase) as (_ & _ & f & fmt & Htr).
  rewrite Hname in Htr.
  split; [exact H|]. split; [reflexivity|]. exists f, fmt. exact Htr.
Defined.

(** X2 on the example, one read for each case: the resource identifier does
    not parse; the fetch fails; the frontend reference of the located
    [pool1] holds an identifier that does not parse. *)
Lemma read_fails_in_three_cases_witness :
  (Exec (example_Read example_d_bad_id) []
     (example_d_bad_id, Returned (Some example_parse_error)) /\
   example_parseAzureResourceID (Id example_d_bad_id) = inl example_parse_error) /\
  (Exec (example_Read example_d1)
     [Called (RetrieveLoadBalancerById example_lb_id) (FetchError (ErrNew "network"))]
     (example_d1,
      Returned (Some (ErrorfV "retrieving Load Balancer by ID: %+v" []
                        (ErrNew "network")))) /\
   exists id err,
     example_parseAzureResourceID (Id example_d1) = inr id /\
     ErrorfV "retrieving Load Balancer by ID: %+v" [] (ErrNew "network")
     = ErrorfV "retrieving Load Balancer by ID: %+v" [] err) /\
  (Exec (example_Read example_d_stale)
     [Called (RetrieveLoadBalancerById example_lb_id)
        (FetchFound (example_lb [example_bad_ref_pool]))]
     (example_d_half_read, Returned (Some example_parse_error)) /\
   exists id config index props feipConfig feipID,
     findLoadBalancerNatPoolByName (example_lb [example_bad_ref_pool])
       (Path_get (Path id) "inboundNatPools") = Some (config, index) /\
     pool_Properties config = Some props /\
     FrontendIPConfiguration_ref props = Some feipConfig /\
     sub_ID feipConfig = Some feipID /\
     example_parseAzureResourceID feipID = inl example_parse_error /\
     example_d_half_read = read_stores_properties id config props example_d_stale).
Proof.
  assert (H1 : Exec (example_Read example_d_bad_id) []
                 (example_d_bad_id, Returned (Some example_parse_error)))
    by exact (run_Exec scripted (example_Read example_d_bad_id) script_read).
  assert (H2 : Exec (example_Read example_d1)
                 [Called (RetrieveLoadBalancerById example_lb_id)
                    (FetchError (ErrNew "network"))]
                 (example_d1,
                  Returned (Some (ErrorfV "retrieving Load Balancer by ID: %+v" []
                                    (ErrNew "network")))))
    by exact (run_Exec scripted (example_Read example_d1) script_fetch_fails).
  assert (H3 : Exec (example_Read example_d_stale)
                 [Called (RetrieveLoadBalancerById example_lb_id)
                    (FetchFound (example_lb [example_bad_ref_pool]))]
                 (example_d_half_read, Returned (Some example_parse_error)))
    by exact (run_Exec scripted (example_Read example_d_stale) script_bad_ref).
  split; [|split].
  - split; [exact H1|].
    destruct (read_fails_in_three_cases example_parseAzureResourceID _ _ _ _ H1)
      as [(Hparse & _ & _)
         | [(id & err & _ & Htr & _) | (id & lb & c & i & p & fc & fi & _ & Htr & _)]].
    + exact Hparse.
    + discriminate Htr.
    + discriminate Htr.
  - split; [exact H2|].
    destruct (read_fails_in_three_cases example_parseAzureResourceID _ _ _ _ H2)
      as [(_ & Htr & _)
         | [(id & err & Hid & _ & He & _) | (id & lb & c & i & p & fc & fi & _ & Htr & _)]].
    + discriminate Htr.
    + exists id, err. split; [exact Hid | exact He].
    + apply (f_equal first_fetch) in Htr. discriminate Htr.
  - split; [exact H3|].
    destruct (read_fails_in_three_cases example_parseAzureResourceID _ _ _ _ H3)
      as [(_ & Htr & _)
         | [(id & err & _ & Htr & _)
           | (id & lb & c & i & p & fc & fi & _ & Htr & Hfind & Hp & Hr & Hs & Hparse & Hd & _)]].
    + discriminate Htr.
    + apply (f_equal first_fetch) in Htr. discriminate Htr.
    + apply (f_equal first_fetch) in Htr. injection Htr as <-.
      exists id, c, i, p, fc, fi. auto 10.
Defined.

(** X3 on the example: the read after the update, made twice. *)
Lemma read_is_idempotent_witness :
  Exec (example_Read example_d1) example_read_trace (example_d2, Returned None) /\
  first_fetch example_read_trace
    = Some (FetchFound (example_lb [example_other_pool; example_stored_pool])) /\
  Id example_d2 <> "" /\
  Exec (example_Read example_d2) example_read_trace (example_d2, Returned None) /\
  example_d2 = example_d2 /\ Returned None = Returned None.
Proof.
  assert (H1 : Exec (example_Read example_d1) example_read_trace
                 (example_d2, Returned None))
    by exact (run_Exec scripted (example_Read example_d1) script_read).
  assert (H2 : Exec (example_Read example_d2) example_read_trace
                 (example_d2, Returned None))
    by exact (run_Exec scripted (example_Read example_d2) script_read).
  assert (Hid : Id example_d2 <> "") by discriminate.
  split; [exact H1|]. split; [reflexivity|]. split; [exact Hid|].
  split; [exact H2|].
  exact (read_is_idempotent example_parseAzureResourceID
           _ _ _ _ _ _ _ H1 eq_refl Hid H2 eq_refl).
Defined.

(** X4 on the example: the submit is refused. *)
Lemma remote_failure_is_returned_witness :
  Exec (example_CreateUpdate example_d) example_submit_fails_trace
    (example_d, Returned (Some example_submit_error)) /\
  remote_failures example_submit_fails_trace = [ErrNew "conflict"] /\
  nothing_after_failure example_submit_fails_trace /\
  exists e, Returned (Some example_submit_error) = Returned (Some e) /\
            wraps (ErrNew "conflict") e.
Proof.
  assert (H : Exec (example_CreateUpdate example_d) example_submit_fails_trace
                (example_d, Returned (Some example_submit_error)))
    by exact (run_Exec scripted (example_CreateUpdate example_d)
                script_submit_fails).
  destruct (remote_failure_is_returned
              example_resourceGroupAndLBNameFromId example_parseAzureResourceID
              _ _ _ _ (or_introl H)) as [Hstop Hret].
  split; [exact H|]. split; [reflexivity|]. split; [exact Hstop|].
  exact (Hret (ErrNew "conflict") (or_introl eq_refl)).
Defined.

(** X5 on the example: the first delete, the read after the update, and the
    update. *)
Lemma calls_of_the_operations_witness :
  (Exec (example_Delete example_d) example_delete_first_trace
     (example_d, Returned None) /\
   length (fetches example_delete_first_trace) = 1%nat /\
   exists k, protocol_steps example_delete_first_trace
             = firstn k [Submit; CompletionWait; Refetch]) /\
  (Exec (example_Read example_d1) example_read_trace (example_d2, Returned None) /\
   (length (fetches example_read_trace) <= 1)%nat /\
   protocol_steps example_read_trace = []) /\
  (Exec (example_CreateUpdate example_d) example_update_trace
     (example_d1, Returned None) /\
   length (fetches example_update_trace) = 2%nat /\
   protocol_steps example_update_trace = protocol_order).
Proof.
  assert (H1 : Exec (example_Delete example_d) example_delete_first_trace
                 (example_d, Returned None))
    by exact (run_Exec scripted (example_Delete example_d) script_delete_first).
  assert (H2 : Exec (example_Read example_d1) example_read_trace
                 (example_d2, Returned None))
    by exact (run_Exec scripted (example_Read example_d1) script_read).
  assert (H3 : Exec (example_CreateUpdate example_d) example_update_trace
                 (example_d1, Returned None))
    by exact (run_Exec scripted (example_CreateUpdate example_d) script_update).
  split; [|split].
  - split; [exact H1|].
    exact (proj1 (calls_of_the_operations
                    example_resourceGroupAndLBNameFromId
                    example_parseAzureResourceID example_d _ _) H1).
  - split; [exact H2|].
    exact (proj1 (proj2 (calls_of_the_operations
                           example_resourceGroupAndLBNameFromId
                           example_parseAzureResourceID example_d1 _ _)) H2).
  - split; [exact H3|]. split; [reflexivity|].
    exact (proj2 (proj2 (proj2 (calls_of_the_operations
                                  example_resourceGroupAndLBNameFromId
                                  example_parseAzureResourceID example_d _ _))
                          H3) eq_refl).
Defined.

(** X6 on the example: the update that returned nil. *)
Lemma success_means_whole_protocol_witness :
  Exec (example_CreateUpdate example_d) example_update_trace
    (example_d1, Returned None) /\
  first_fetch example_update_trace
    = Some (FetchFound (example_lb [example_other_pool; example_old_pool])) /\
  protocol_steps example_update_trace = protocol_order /\
  remote_failures example_update_trace = [] /\
  length (fetches example_update_trace) = 2%nat /\
  exists lbS, submitted example_update_trace = [lbS].
Proof.
  assert (H : Exec (example_CreateUpdate example_d) example_update_trace
                (example_d1, Returned None))
    by exact (run_Exec scripted (example_CreateUpdate example_d) script_update).
  split; [exact H|]. split; [reflexivity|].
  exact (success_means_whole_protocol
           example_resourceGroupAndLBNameFromId example_parseAzureResourceID
           _ _ _ _ H eq_refl).
Defined.

(** X7 on the example: the parent has [feip1] and no NAT-pool collection. *)
Lemma create_update_on_absent_collection_witness :
  Exec (example_CreateUpdate example_d) example_no_collection_trace
    (example_d, Panicked NilDereference) /\
  first_fetch example_no_collection_trace
    = Some (FetchFound example_lb_no_collection) /\
  expandAzureRmLoadBalancerNatPool example_d example_lb_no_collection
    = inr example_new_pool /\
  deref_InboundNatPools example_lb_no_collection = None /\
  example_no_collection_trace
  = [Called (LocksByID example_lb_id) tt;
     Called (RetrieveLoadBalancerById example_lb_id)
       (FetchFound example_lb_no_collection);
     Called (LocksUnlockByID example_lb_id) tt].
Proof.
  assert (H : Exec (example_CreateUpdate example_d) example_no_collection_trace
                (example_d, Panicked NilDereference))
    by exact (run_Exec scripted (example_CreateUpdate example_d)
                script_no_collection).
  assert (He : expandAzureRmLoadBalancerNatPool example_d example_lb_no_collection
               = inr example_new_pool) by (vm_compute; reflexivity).
  destruct (proj1 (create_update_on_absent_collection
                     example_resourceGroupAndLBNameFromId
                     example_parseAzureResourceID
                     _ _ _ _ _ H eq_refl) example_new_pool He eq_refl)
    as (_ & _ & Htr).
  split; [exact H|]. split; [reflexivity|]. split; [exact He|].
  split; [reflexivity | exact Htr].
Defined.

(** X8 on the example: the delete of [pool1] after the update submits, and
    leaves the resource data, identifier included, as it found it. *)
Lemma delete_never_panics_witness :
  Exec (example_Delete example_d1) example_delete_after_update_trace
    (example_d1, Returned None) /\
  submitted example_delete_after_update_trace <> [] /\
  Id example_d1 = example_pool1_id /\
  (exists e, Returned None = Returned e) /\
  (example_d1 = example_d1 \/
   (example_d1 = SetId "" example_d1 /\
    first_fetch example_delete_after_update_trace = Some FetchNotFound)) /\
  (submitted example_delete_after_update_trace <> [] -> example_d1 = example_d1).
Proof.
  assert (H : Exec (example_Delete example_d1) example_delete_after_update_trace
                (example_d1, Returned None))
    by exact (run_Exec scripted (example_Delete example_d1)
                script_delete_after_update).
  assert (Hs : submitted example_delete_after_update_trace <> [])
    by discriminate.
  split; [exact H|]. split; [exact Hs|]. split; [reflexivity|].
  exact (delete_never_panics example_resourceGroupAndLBNameFromId
           _ _ _ _ H).
Defined.

(** X9 on the example: the polling times out with the identifier of the
    stored [pool1] set; and after an update whose final read finds the
    parent without [pool1], the identifier is empty. *)
Lemma recorded_identifier_witness :
  (Exec (example_CreateUpdate example_d) example_poll_fails_trace
     (SetId example_pool1_id example_d, Returned (Some example_poll_error)) /\
   In StatePoll (protocol_steps example_poll_fails_trace) /\
   remote_failures example_poll_fails_trace <> [] /\
   exists read pre x post,
     refetched example_poll_fails_trace = [inr read] /\
     natPoolsOf read = pre ++ x :: post /\
     pool_ID x = Some example_pool1_id) /\
  (Exec (example_CreateUpdate example_d) example_update_gone_trace
     (SetId "" example_d, Returned None) /\
   In StatePoll (protocol_steps example_update_gone_trace) /\
   exists f1 f2, fetches example_update_gone_trace = [f1; f2]).
Proof.
  assert (H : Exec (example_CreateUpdate example_d) example_poll_fails_trace
                (SetId example_pool1_id example_d,
                 Returned (Some example_poll_error)))
    by exact (run_Exec scripted (example_CreateUpdate example_d)
                script_poll_fails).
  assert (Hin : In StatePoll (protocol_steps example_poll_fails_trace))
    by (simpl; auto).
  assert (Hfail : remote_failures example_poll_fails_trace <> [])
    by discriminate.
  assert (H' : Exec (example_CreateUpdate example_d) example_update_gone_trace
                 (SetId "" example_d, Returned None))
    by exact (run_Exec scripted (example_CreateUpdate example_d)
                script_update_gone).
  assert (Hin' : In StatePoll (protocol_steps example_update_gone_trace))
    by (simpl; auto).
  split.
  - destruct (recorded_identifier
                example_resourceGroupAndLBNameFromId example_parseAzureResourceID
                _ _ _ _ H Hin)
      as (read & pre & x & post & i & Hre & Hpools & _ & Hi & _ & _ & _ & Hset).
    split; [exact H|]. split; [exact Hin|]. split; [exact Hfail|].
    exists read, pre, x, post. split; [exact Hre|]. split; [exact Hpools|].
    assert (Ei : i = example_pool1_id).
    { pose proof (f_equal Id (Hset Hfail)) as E. simpl in E. symmetry. exact E. }
    rewrite <- Ei. exact Hi.
  - destruct (recorded_identifier
                example_resourceGroupAndLBNameFromId example_parseAzureResourceID
                _ _ _ _ H' Hin')
      as (read & pre & x & post & i & _ & _ & _ & _ & Hne & _ & Hid & _).
    split; [exact H'|]. split; [exact Hin'|].
    destruct Hid as [Hid | (_ & _ & f1 & f2 & id & Hf & _)].
    + exfalso. apply Hne. symmetry. exact Hid.
    + exists f1, f2. exact Hf.
Defined.

(** X10 on the example: the update submits the parent with its identifier,
    name, frontend IP configurations and provisioning state. *)
Lemma submit_keeps_rest_of_aggregate_witness :
  Exec (example_CreateUpdate example_d) example_update_trace
    (example_d1, Returned None) /\
  first_fetch example_update_trace
    = Some (FetchFound (example_lb [example_other_pool; example_old_pool])) /\
  In (example_lb [example_other_pool; example_new_pool])
     (submitted example_update_trace) /\
  rest_of_aggregate (example_lb [example_other_pool; example_new_pool])
  = rest_of_aggregate (example_lb [example_other_pool; example_old_pool]).
Proof.
  assert (H : Exec (example_CreateUpdate example_d) example_update_trace
                (example_d1, Returned None))
    by exact (run_Exec scripted (example_CreateUpdate example_d) script_update).
  split; [exact H|]. split; [reflexivity|]. split; [left; reflexivity|].
  exact (submit_keeps_rest_of_aggregate
           example_resourceGroupAndLBNameFromId example_parseAzureResourceID
           example_d example_update_trace example_d1 (Returned None)
           (example_lb [example_other_pool; example_old_pool])
           (example_lb [example_other_pool; example_new_pool])
           (or_introl H) eq_refl (or_introl eq_refl)).
Defined.

(** X11 on the example: the update stays with [lb1] of [rg1]. *)
Lemma one_parent_per_operation_witness :
  Exec (example_CreateUpdate example_d) example_update_trace
    (example_d1, Returned None) /\
  In example_lb_id (keys example_update_trace) /\
  In ("rg1", "lb1") (targets example_update_trace) /\
  example_resourceGroupAndLBNameFromId (loadbalancer_id example_d)
  = inr ("rg1", "lb1").
Proof.
  assert (H : Exec (example_CreateUpdate example_d) example_update_trace
                (example_d1, Returned None))
    by exact (run_Exec scripted (example_CreateUpdate example_d) script_update).
  assert (Hk : In example_lb_id (keys example_update_trace))
    by (left; reflexivity).
  assert (Ht : In ("rg1", "lb1") (targets example_update_trace))
    by (left; reflexivity).
  split; [exact H|]. split; [exact Hk|]. split; [exact Ht|].
  exact (proj2 (one_parent_per_operation
                  example_resourceGroupAndLBNameFromId
                  example_parseAzureResourceID
                  example_d example_update_trace (example_d1, Returned None)
                  (or_introl H)) ("rg1", "lb1") Ht).
Defined.

(** X12 on the example: [feip1] is the one frontend IP configuration of the
    parent. *)
Lemma expand_resolves_first_match_witness :
  frontend_ip_configuration_name example_d <> "" /\
  frontendConfigsOf (example_lb []) = [] ++ example_feip :: [] /\
  feip_Name example_feip = Some (frontend_ip_configuration_name example_d) /\
  exists props,
    expandAzureRmLoadBalancerNatPool example_d (example_lb [])
    = inr (mkInboundNatPool None (Some "pool1") (Some props)) /\
    FrontendIPConfiguration_ref props
    = Some (mkSubResource (feip_ID example_feip)) /\
    Protocol props = "Tcp".
Proof.
  assert (Hv : frontend_ip_configuration_name example_d <> "") by discriminate.
  split; [exact Hv|]. split; [reflexivity|]. split; [reflexivity|].
  exact (expand_resolves_first_match example_d (example_lb [])
           [] example_feip [] Hv eq_refl eq_refl (fun y (Hy : In y []) => match Hy with end)).
Defined.

(** X13 on the example: the update of [pool1], then its delete, leave
    [pool0]. *)
Lemma delete_undoes_create_update_witness :
  Exec (example_CreateUpdate example_d) example_update_trace
    (example_d1, Returned None) /\
  first_fetch example_update_trace
    = Some (FetchFound (example_lb [example_other_pool; example_old_pool])) /\
  In (example_lb [example_other_pool; example_new_pool])
     (submitted example_update_trace) /\
  Exec (example_Delete example_d1) example_delete_after_update_trace
    (example_d1, Returned None) /\
  first_fetch example_delete_after_update_trace
    = Some (FetchFound (example_lb [example_other_pool; example_new_pool])) /\
  In (example_lb [example_other_pool])
     (submitted example_delete_after_update_trace) /\
  natPoolsOf (example_lb [example_other_pool])
  = filter (fun x => negb (carries "pool1" x))
      [example_other_pool; example_old_pool].
Proof.
  assert (H1 : Exec (example_CreateUpdate example_d) example_update_trace
                 (example_d1, Returned None))
    by exact (run_Exec scripted (example_CreateUpdate example_d) script_update).
  assert (H2 : Exec (example_Delete example_d1) example_delete_after_update_trace
                 (example_d1, Returned None))
    by exact (run_Exec scripted (example_Delete example_d1)
                script_delete_after_update).
  split; [exact H1|]. split; [reflexivity|]. split; [left; reflexivity|].
  split; [exact H2|]. split; [reflexivity|]. split; [left; reflexivity|].
  exact (delete_undoes_create_update
           example_resourceGroupAndLBNameFromId example_parseAzureResourceID
           example_d example_update_trace example_d1 (Returned None)
           (example_lb [example_other_pool; example_old_pool])
           (example_lb [example_other_pool; example_new_pool])
           example_d1 example_delete_after_update_trace example_d1 (Returned None)
           (example_lb [example_other_pool])
           H1 eq_refl example_names_unique (or_introl eq_refl) eq_refl
           H2 eq_refl (or_introl eq_refl)).
Defined.
